(** * Thunder worker pool: the job life cycle and the pool's revoke and closure

    A shallow embedding of [Source/core/ThreadPool.h]:
    - [JobType]: the per-job state machine ([ThreadPool::JobType]), every
      member function as the sequence of [compare_exchange_strong] calls
      the header writes, with the short-circuit [&&] and [||] of C++;
    - [ThreadPool]: [Minion::Completed], [ThreadPool::Revoke] and
      [ThreadPool::Closure];
    - [Introspection]: the [ThreadPool] constructor, [Count], [Pending],
      [Runs], [Active] and [Id];
    - [Handles]: one slot in a running pool, with the loop of
      [Minion::Process] taken statement by statement.

    Each member function is modelled as one atomic step on the object it
    belongs to: the embedding is sequential, interleavings inside a member
    function are not modelled. *)

From Stdlib Require Import ZArith List Bool Lia.
Import ListNotations.

Set Implicit Arguments.

(** ** What the header takes from the rest of the Core library *)

(** [Core::Time] ([Time.h] is not part of the sources at hand): the header
    only default-constructs it, copies it, asks [IsValid()] and compares
    two of them with [<]. *)
Class TimeOps (Time : Type) : Type := {
  Time_new : Time;
  Time_IsValid : Time -> bool;
  Time_lt : Time -> Time -> bool
}.

(** [ProxyType<IDispatch>]: a counted reference, either empty or naming the
    object it refers to (here by its address). *)
Definition ProxyType : Type := option nat.

Definition IsValid (p : ProxyType) : bool :=
  match p with
  | Some _ => true
  | None => false
  end.

Definition ProxyType_eqb (a b : ProxyType) : bool :=
  match a, b with
  | Some x, Some y => Nat.eqb x y
  | None, None => true
  | _, _ => false
  end.

(** ** ThreadPool::JobType<IMPLEMENTATION> *)

Module JobType.

Inductive state : Type :=
  | IDLE
  | SUBMITTED
  | EXECUTING
  | RESUBMIT
  | SCHEDULE
  | REVOKING.

Definition state_eqb (a b : state) : bool :=
  match a, b with
  | IDLE, IDLE | SUBMITTED, SUBMITTED | EXECUTING, EXECUTING
  | RESUBMIT, RESUBMIT | SCHEDULE, SCHEDULE | REVOKING, REVOKING => true
  | _, _ => false
  end.

(** *** std::atomic<state>

    A computation on the atomic cell is a function of its current value
    giving a result and the new value. *)
Definition atomic (A : Type) : Type := state -> A * state.

Definition compare_exchange_strong (expected desired : state) : atomic bool :=
  fun cur => if state_eqb cur expected then (true, desired) else (false, cur).

Definition load : atomic state := fun cur => (cur, cur).

(** [c == true] and [c == false] *)
Definition is_true (c : atomic bool) : atomic bool := c.

Definition is_false (c : atomic bool) : atomic bool :=
  fun cur => let (r, s) := c cur in (negb r, s).

(** C++ [a && b] and [a || b]: the right operand runs only when needed. *)
Definition and_then (a b : atomic bool) : atomic bool :=
  fun cur => let (r, s) := a cur in if r then b s else (false, s).

Definition or_else (a b : atomic bool) : atomic bool :=
  fun cur => let (r, s) := a cur in if r then (true, s) else b s.

Declare Scope atomic_scope.
Delimit Scope atomic_scope with atomic.
Infix "&&&" := and_then (at level 40, left associativity) : atomic_scope.
Infix "|||" := or_else (at level 50, left associativity) : atomic_scope.
Local Open Scope atomic_scope.

(** The body the slot runs: [IMPLEMENTATION::Dispatch()].  The body may
    look at the slot it belongs to while it runs, so it is given the state
    the slot is in at the call. *)
Class Implementation (IMPLEMENTATION : Type) : Type := {
  Implementation_Dispatch : state -> IMPLEMENTATION -> IMPLEMENTATION
}.

Section Slot.

Context {Time : Type} {IMPLEMENTATION : Type}.

(** The data members.  [_job] is the address of the embedded
    [ProxyObject<Worker>], which every handle of the slot refers to. *)
Record t : Type := Build {
  _implementation : IMPLEMENTATION;
  _state : state;
  _job : nat;
  _time : Time
}.

Definition with_state (j : t) (s : state) : t :=
  {| _implementation := _implementation j; _state := s;
     _job := _job j; _time := _time j |}.

Definition with_time (j : t) (time : Time) : t :=
  {| _implementation := _implementation j; _state := _state j;
     _job := _job j; _time := time |}.

(** [ProxyType<IDispatch>(ProxyType<Worker>(_job))] *)
Definition handle (j : t) : ProxyType := Some (_job j).

(** The constructor: [_state(IDLE)], [_time()]. *)
Definition make `{TimeOps Time} (impl : IMPLEMENTATION) (job : nat) : t :=
  {| _implementation := impl; _state := IDLE; _job := job; _time := Time_new |}.

Definition IsIdle (j : t) : bool := state_eqb (_state j) IDLE.

Definition Idle (j : t) : ProxyType * t :=
  let (ok, s) := is_true (compare_exchange_strong IDLE SUBMITTED) (_state j) in
  ((if ok then handle j else None), with_state j s).

Definition Submit (j : t) : ProxyType * t :=
  let (ok, s) :=
    (is_false (compare_exchange_strong EXECUTING RESUBMIT) &&&
     is_false (compare_exchange_strong SCHEDULE RESUBMIT) &&&
     is_true (compare_exchange_strong IDLE SUBMITTED)) (_state j) in
  ((if ok then handle j else None), with_state j s).

Definition Reschedule (time : Time) (j : t) : ProxyType * t :=
  let (ok, s) :=
    (is_false (compare_exchange_strong EXECUTING SCHEDULE) &&&
     is_false (compare_exchange_strong RESUBMIT SCHEDULE) &&&
     (is_true (compare_exchange_strong SUBMITTED SCHEDULE) |||
      is_true (compare_exchange_strong IDLE SCHEDULE))) (_state j) in
  if ok then (handle j, with_state j s)
  else (None, with_time (with_state j s) time).

Definition RevokeRequired : atomic bool :=
  fun cur =>
    let (v, s) := load cur in
    let result := state_eqb v REVOKING in
    if negb result then
      let (ok, s') :=
        (is_true (compare_exchange_strong SUBMITTED REVOKING) |||
         is_true (compare_exchange_strong EXECUTING REVOKING) |||
         is_true (compare_exchange_strong RESUBMIT REVOKING) |||
         is_true (compare_exchange_strong SCHEDULE REVOKING)) s in
      ((if ok then true else result), s')
    else (result, s).

Definition Revoke (j : t) : ProxyType * t :=
  let (required, s) := RevokeRequired (_state j) in
  ((if required then handle j else None), with_state j s).

(** [Revoked]: the result of the exchange is only asserted. *)
Definition Revoked (j : t) : t :=
  let (_, s) := compare_exchange_strong REVOKING IDLE (_state j) in
  with_state j s.

(** [Resubmit(Time& time)]: the reference parameter comes in as [time] and
    goes out as the second component. *)
Definition Resubmit (time : Time) (j : t) : ProxyType * Time * t :=
  let (done, s) := compare_exchange_strong EXECUTING IDLE (_state j) in
  if negb done then
    let (again, s1) := compare_exchange_strong RESUBMIT SUBMITTED s in
    if again then (handle j, time, with_state j s1)
    else
      let (later, s2) := compare_exchange_strong SCHEDULE SUBMITTED s1 in
      if later then (handle j, _time j, with_state j s2)
      else (None, time, with_state j s2)
  else (None, time, with_state j s).

(** [Dispatch]: the boolean says whether [_implementation.Dispatch()] was
    called. *)
Definition Dispatch `{Implementation IMPLEMENTATION} (j : t) : bool * t :=
  let (ok, s) := compare_exchange_strong SUBMITTED EXECUTING (_state j) in
  if ok then
    (true, {| _implementation := Implementation_Dispatch s (_implementation j);
              _state := s; _job := _job j; _time := _time j |})
  else (false, with_state j s).

End Slot.

Arguments t : clear implicits.

End JobType.

(** ** ThreadPool *)

Module ThreadPool.

(** Modelled from the spec: the result codes [ThreadPool::Revoke] works
    with (OK, TIMEDOUT and UNKNOWN_KEY).  Their numeric values are in
    [Portability.h], which is not part of the sources at hand; the header
    only compares them for equality. *)
Inductive error_code : Type :=
  | ERROR_NONE
  | ERROR_TIMEDOUT
  | ERROR_UNKNOWN_KEY.

Definition error_eqb (a b : error_code) : bool :=
  match a, b with
  | ERROR_NONE, ERROR_NONE | ERROR_TIMEDOUT, ERROR_TIMEDOUT
  | ERROR_UNKNOWN_KEY, ERROR_UNKNOWN_KEY => true
  | _, _ => false
  end.

(** [::ThreadId] *)
Definition ThreadId : Type := N.

(** Modelled from the spec: [Core::Event] ([Sync.h] is not part of the
    sources at hand).  Waiting on the event for at most [waitTime]
    milliseconds gives OK when it is signalled in time and TIMEDOUT
    otherwise; whether it is signalled in time is up to the worker that
    owns it. *)
Record Event : Type := {
  signalled_within : N -> bool
}.

Definition Event_Lock (e : Event) (waitTime : N) : error_code :=
  if signalled_within e waitTime then ERROR_NONE else ERROR_TIMEDOUT.

(** Modelled from the spec: [QueueType<ProxyType<IDispatch>>] ([Queue.h]
    is not part of the sources at hand), a FIFO of handles.  [Post]
    appends; [Remove] searches linearly, removes the entry it finds and
    says whether it found one. *)
Definition MessageQueue : Type := list ProxyType.

Definition Post (q : MessageQueue) (job : ProxyType) : MessageQueue :=
  q ++ [job].

Fixpoint Remove (q : MessageQueue) (job : ProxyType) : bool * MessageQueue :=
  match q with
  | [] => (false, [])
  | entry :: rest =>
      if ProxyType_eqb entry job then (true, rest)
      else let (found, rest') := Remove rest job in (found, entry :: rest')
  end.

(** *** Minion and Executor *)

Record Minion : Type := {
  _signal : Event;
  _interestCount : N;
  _currentRequest : ProxyType;
  _runs : N
}.

(** [Minion::Completed].  The second component says whether the caller
    blocked on [_signal]; [_interestCount] is back at its value when the
    call returns. *)
Definition Completed (m : Minion) (job : ProxyType) (waitTime : N)
  : error_code * bool :=
  if negb (ProxyType_eqb (_currentRequest m) job) then (ERROR_UNKNOWN_KEY, false)
  else (Event_Lock (_signal m) waitTime, true).

Record Executor : Type := {
  Id : ThreadId;
  _minion : Minion
}.

Definition Me (e : Executor) : Minion := _minion e.

Section Pool.

Context {Time : Type} `{TimeOps Time}.

(** [IScheduler]: an implementation is not part of the header; a scheduler
    is represented by the calls to [Schedule] it has received. *)
Definition IScheduler : Type := list (Time * ProxyType).

Definition Schedule (s : IScheduler) (time : Time) (job : ProxyType)
  : IScheduler := s ++ [(time, job)].

(** The data members; [_scheduler] is a pointer that may be null. *)
Record t : Type := Build {
  _queue : MessageQueue;
  _units : list Executor;
  _scheduler : option IScheduler
}.

Definition with_queue (pool : t) (q : MessageQueue) : t :=
  {| _queue := q; _units := _units pool; _scheduler := _scheduler pool |}.

Definition with_scheduler (pool : t) (s : option IScheduler) : t :=
  {| _queue := _queue pool; _units := _units pool; _scheduler := s |}.

Definition scheduler_is_null (pool : t) : bool :=
  match _scheduler pool with
  | None => true
  | Some _ => false
  end.

(** The loop of [ThreadPool::Revoke]:
    [while ((result == ERROR_UNKNOWN_KEY) && (index != _units.end()))].
    [caller] is [Thread::ThreadId()]; [waits] collects the workers on whose
    signal the caller blocked. *)
Fixpoint Revoke_loop (units : list Executor) (job : ProxyType) (waitTime : N)
    (caller : ThreadId) (result : error_code) (waits : list ThreadId)
  : error_code * list ThreadId :=
  match units with
  | [] => (result, waits)
  | index :: rest =>
      if error_eqb result ERROR_UNKNOWN_KEY then
        if N.eqb (Id index) caller then
          Revoke_loop rest job waitTime caller ERROR_NONE waits
        else
          let (outcome, blocked) := Completed (Me index) job waitTime in
          let result' :=
            if error_eqb outcome ERROR_NONE || error_eqb outcome ERROR_TIMEDOUT
            then outcome else result in
          let waits' := if blocked then waits ++ [Id index] else waits in
          Revoke_loop rest job waitTime caller result' waits'
      else (result, waits)
  end.

(** [ThreadPool::Revoke(job, waitTime)], called from thread [caller].  The
    [ASSERT] on the handle is a debug check and has no effect on the
    result. *)
Definition Revoke (pool : t) (job : ProxyType) (waitTime : N)
    (caller : ThreadId) : error_code * list ThreadId * t :=
  let (removed, q) := Remove (_queue pool) job in
  if removed then (ERROR_NONE, [], with_queue pool q)
  else
    let (result, waits) :=
      Revoke_loop (_units pool) job waitTime caller ERROR_UNKNOWN_KEY [] in
    (result, waits, with_queue pool q).

(** [IJob]: what [Closure] needs of the job it is given. *)
Class IJob (J : Type) : Type := {
  IJob_Resubmit : Time -> J -> ProxyType * Time * J
}.

(** [ThreadPool::Closure(job)]; [now] is [Time::Now()].  [_queue.Lock()]
    and [_queue.Unlock()] bracket the body and are not visible in a
    sequential run. *)
Definition Closure {J : Type} `{IJob J} (now : Time) (pool : t) (job : J)
  : t * J :=
  let '(resubmit, scheduleTime, job') := IJob_Resubmit Time_new job in
  if IsValid resubmit then
    if negb (Time_IsValid scheduleTime) || scheduler_is_null pool
       || Time_lt scheduleTime now
    then (with_queue pool (Post (_queue pool) resubmit), job')
    else (with_scheduler pool
            (option_map (fun s => Schedule s scheduleTime resubmit)
               (_scheduler pool)), job')
  else (pool, job').

(** The two routes [Closure] has for a handle: [pool'] is [pool] with the
    handle posted on the queue, or with the handle given to the scheduler
    for [time]. *)
Definition posted (pool pool' : t) (job : ProxyType) : Prop :=
  _queue pool' = Post (_queue pool) job /\
  _scheduler pool' = _scheduler pool /\
  _units pool' = _units pool.

Definition handed_over (pool pool' : t) (time : Time) (job : ProxyType)
  : Prop :=
  _queue pool' = _queue pool /\
  (exists s, _scheduler pool = Some s /\
             _scheduler pool' = Some (Schedule s time job)) /\
  _units pool' = _units pool.

(** The condition under which [Closure] posts. *)
Definition posts_when (pool : t) (time now : Time) : Prop :=
  Time_IsValid time = false \/ _scheduler pool = None \/
  Time_lt time now = true.

(** [JobType::Worker] forwards [Resubmit] to its slot. *)
#[export] Instance Worker {IMPLEMENTATION : Type}
  : IJob (JobType.t Time IMPLEMENTATION) :=
  {| IJob_Resubmit := JobType.Resubmit |}.

End Pool.

Arguments t : clear implicits.

End ThreadPool.

(** ** The calls on one slot

    The member functions of a slot as the letters of a run: the producer's
    [Idle], [Submit] and [Reschedule], the revoker's [Revoke] and
    [Revoked], the worker's [Dispatch] and the closure's [Resubmit].
    [OpRemove] stands for [ThreadPool::Revoke] taking a handle out of the
    queue, which does not touch the slot. *)

Module Lifecycle.

Section Run.

Context {Time : Type}.

Inductive op : Type :=
  | OpIdle
  | OpSubmit
  | OpReschedule (time : Time)
  | OpRevoke
  | OpDispatch
  | OpResubmit
  | OpRemove
  | OpRevoked.

Definition yielded (h : ProxyType) : nat := if IsValid h then 1 else 0.

End Run.

Arguments op : clear implicits.

End Lifecycle.

(** ** The outcome of [ThreadPool::Revoke], told in words

    OK if the handle is removed from the queue; otherwise the workers in
    order: OK at the first whose thread is the caller's, else what its
    [Completed] says if that is OK or TIMEDOUT, else on to the next;
    UNKNOWN_KEY when the workers are exhausted. *)

Module RevokeSpec.

Import ThreadPool.

Fixpoint first_outcome (units : list Executor) (job : ProxyType)
    (waitTime : N) (caller : ThreadId) : error_code :=
  match units with
  | [] => ERROR_UNKNOWN_KEY
  | w :: rest =>
      if N.eqb (Id w) caller then ERROR_NONE
      else
        match fst (Completed (Me w) job waitTime) with
        | ERROR_NONE => ERROR_NONE
        | ERROR_TIMEDOUT => ERROR_TIMEDOUT
        | ERROR_UNKNOWN_KEY => first_outcome rest job waitTime caller
        end
  end.

Definition outcome {Time : Type} (pool : ThreadPool.t Time) (job : ProxyType)
    (waitTime : N) (caller : ThreadId) : error_code :=
  if fst (Remove (_queue pool) job) then ERROR_NONE
  else first_outcome (_units pool) job waitTime caller.

End RevokeSpec.

(** ** A concrete clock and a concrete body, for the examples

    Ticks as integers, zero being the default-constructed, invalid time;
    a body that counts its runs. *)

#[export] Instance Ticks : TimeOps Z :=
  {| Time_new := 0%Z;
     Time_IsValid := fun t => negb (Z.eqb t 0);
     Time_lt := Z.ltb |}.

#[export] Instance Counter : JobType.Implementation nat :=
  {| JobType.Implementation_Dispatch := fun _ runs => S runs |}.

(** ** Three statements the header does not satisfy as they stand

    They are kept as definitions so that the examples refuting them and the
    theorems that hold in their place can be read side by side. *)

Module Stated.

Import JobType.

Section Statements.

Context (Time : Type) `{TimeOps Time}.
Context (IMPLEMENTATION : Type) `{Implementation IMPLEMENTATION}.

Let slot_t : Type := JobType.t Time IMPLEMENTATION.

(** [Submit] gives a handle exactly from IDLE; EXECUTING and SCHEDULE go to
    RESUBMIT without a handle, and from SCHEDULE the stored time is
    dropped: no valid time is stored afterwards; the other states are left
    alone. *)
Definition Submit_drops_time : Prop :=
  forall j : slot_t,
    (IsValid (fst (Submit j)) = true <-> _state j = IDLE) /\
    match _state j with
    | IDLE => _state (snd (Submit j)) = SUBMITTED
    | EXECUTING => Submit j = (None, with_state j RESUBMIT)
    | SCHEDULE =>
        fst (Submit j) = None /\
        _state (snd (Submit j)) = RESUBMIT /\
        Time_IsValid (_time (snd (Submit j))) = false
    | SUBMITTED | RESUBMIT | REVOKING => Submit j = (None, j)
    end.

(** [Reschedule time] on a SUBMITTED or IDLE slot goes to SCHEDULE, stores
    [time] and gives a handle. *)
Definition Reschedule_stores_time : Prop :=
  forall (time : Time) (j : slot_t),
    _state j = SUBMITTED \/ _state j = IDLE ->
    IsValid (fst (Reschedule time j)) = true /\
    _state (snd (Reschedule time j)) = SCHEDULE /\
    _time (snd (Reschedule time j)) = time.

(** [Reschedule time] on a REVOKING or SCHEDULE slot gives no handle and
    changes nothing, the stored time included. *)
Definition Reschedule_changes_nothing : Prop :=
  forall (time : Time) (j : slot_t),
    _state j = REVOKING \/ _state j = SCHEDULE ->
    Reschedule time j = (None, j).

End Statements.

Arguments Submit_drops_time Time {_} IMPLEMENTATION.

End Stated.

(** ** Concrete slots, runs and pools used by the examples *)

Module Examples.

(** A slot of a counting body, with handle address 1, in a given state and
    with a given stored time. *)
Definition slot_in (s : JobType.state) (time : Z) : JobType.t Z nat :=
  {| JobType._implementation := 0; JobType._state := s;
     JobType._job := 1; JobType._time := time |}.

(** An event that is never signalled. *)
Definition never : ThreadPool.Event :=
  {| ThreadPool.signalled_within := fun _ => false |}.

(** A worker of thread [id] whose current request is [current]. *)
Definition worker (id : N) (current : ProxyType) : ThreadPool.Executor :=
  {| ThreadPool.Id := id;
     ThreadPool._minion :=
       {| ThreadPool._signal := never; ThreadPool._interestCount := 0%N;
          ThreadPool._currentRequest := current; ThreadPool._runs := 0%N |} |}.

(** Three workers: the first idle, the second running job 7, the third
    running job 1; job 4 waits in the queue; a scheduler is attached. *)
Definition three_workers : ThreadPool.t Z :=
  {| ThreadPool._queue := [Some 4];
     ThreadPool._units :=
       [worker 10%N None; worker 20%N (Some 7); worker 30%N (Some 1)];
     ThreadPool._scheduler := Some [] |}.

End Examples.

(** ** The pool's constructor and its introspection *)

Module Introspection.

Import ThreadPool.

(** A value stored in a [uint8_t]. *)
Definition uint8 (n : N) : N := N.modulo n 256.

(** [Minion::Runs], [Minion::IsActive] and their [Executor] forwarders. *)
Definition Minion_Runs (m : Minion) : N := _runs m.

Definition Minion_IsActive (m : Minion) : bool := IsValid (_currentRequest m).

Definition Executor_Runs (e : Executor) : N := Minion_Runs (_minion e).

Definition Executor_IsActive (e : Executor) : bool :=
  Minion_IsActive (_minion e).

(** The [Minion] constructor: [_interestCount(0)], [_currentRequest()],
    [_runs(0)].  The event of the worker is given from outside. *)
Definition Minion_new (signal : Event) : Minion :=
  {| _signal := signal; _interestCount := 0%N;
     _currentRequest := None; _runs := 0%N |}.

(** The [Executor] constructor; the thread it wraps brings its id. *)
Definition Executor_new (thread : ThreadId * Event) : Executor :=
  {| ThreadPool.Id := fst thread; _minion := Minion_new (snd thread) |}.

(** The loop of the [ThreadPool] constructor,
    [for (index = 0; index < count; index++) _units.emplace_back(...)],
    with [remaining] the rounds still to go. *)
Fixpoint emplace_units (threads : nat -> ThreadId * Event)
    (remaining index : nat) : list Executor :=
  match remaining with
  | O => []
  | S remaining' =>
      Executor_new (threads index)
        :: emplace_units threads remaining' (S index)
  end.

Section Pool.

Context {Time : Type}.

(** The [ThreadPool] constructor: an empty queue, [count] workers and the
    scheduler it is given, which may be null.  [threads] says which thread
    the system provides for the worker at each position. *)
Definition make (count : N) (threads : nat -> ThreadId * Event)
    (scheduler : option (@IScheduler Time)) : ThreadPool.t Time :=
  {| _queue := [];
     _units := emplace_units threads (N.to_nat count) 0;
     _scheduler := scheduler |}.

(** [Count]: [static_cast<uint8_t>(_units.size())]. *)
Definition Count (pool : ThreadPool.t Time) : N :=
  uint8 (N.of_nat (length (_units pool))).

(** Modelled from the spec: [QueueType::Length] ([Queue.h] is not part of
    the sources at hand), the number of handles in the queue. *)
Definition Length (q : MessageQueue) : N := N.of_nat (length q).

Definition Pending (pool : ThreadPool.t Time) : N := Length (_queue pool).

(** [Runs(length, counters)].  [counters] is the memory behind the pointer
    the caller passes, indexed from zero; [count] is a [uint8_t]. *)
Fixpoint Runs_loop (units : list Executor) (length count : N)
    (counters : N -> N) : N -> N :=
  match units with
  | [] => counters
  | ptr :: rest =>
      if N.ltb count length then
        Runs_loop rest length (uint8 (count + 1))
          (fun i => if N.eqb i count then Executor_Runs ptr else counters i)
      else counters
  end.

Definition Runs (pool : ThreadPool.t Time) (length : N) (counters : N -> N)
  : N -> N :=
  Runs_loop (_units pool) length 0%N counters.

(** [Active]: [count] is a [uint8_t]. *)
Fixpoint Active_loop (units : list Executor) (count : N) : N :=
  match units with
  | [] => count
  | ptr :: rest =>
      Active_loop rest
        (if Executor_IsActive ptr then uint8 (count + 1) else count)
  end.

Definition Active (pool : ThreadPool.t Time) : N :=
  Active_loop (_units pool) 0%N.

(** [Id(index)]: walk to the worker at [index]; zero when the list ends
    first (the [ASSERT] is a debug check). *)
Fixpoint Id_loop (units : list Executor) (index count : N) : ThreadId :=
  match units with
  | [] => 0%N
  | ptr :: rest =>
      if negb (N.eqb index count) then Id_loop rest index (uint8 (count + 1))
      else ThreadPool.Id ptr
  end.

Definition Id (pool : ThreadPool.t Time) (index : N) : ThreadId :=
  Id_loop (_units pool) index 0%N.

End Pool.

End Introspection.

(** ** Body runs against handles given out

    A run of the member functions on one slot with two tallies: how often
    [Dispatch] ran the body, and how many handles [Idle], [Submit] and the
    closure's [Resubmit] gave out.  No order of the calls is assumed. *)

Module Tally.

Section Count.

Context {Time : Type} `{TimeOps Time}.
Context {IMPLEMENTATION : Type} `{JobType.Implementation IMPLEMENTATION}.

Record t : Type := {
  job : JobType.t Time IMPLEMENTATION;
  ran : nat;
  given : nat
}.

Definition act (o : Lifecycle.op Time) (w : t) : t :=
  match o with
  | Lifecycle.OpIdle =>
      let (h, j) := JobType.Idle (job w) in
      {| job := j; ran := ran w; given := given w + Lifecycle.yielded h |}
  | Lifecycle.OpSubmit =>
      let (h, j) := JobType.Submit (job w) in
      {| job := j; ran := ran w; given := given w + Lifecycle.yielded h |}
  | Lifecycle.OpReschedule time =>
      {| job := snd (JobType.Reschedule time (job w));
         ran := ran w; given := given w |}
  | Lifecycle.OpRevoke =>
      {| job := snd (JobType.Revoke (job w)); ran := ran w; given := given w |}
  | Lifecycle.OpDispatch =>
      let (called, j) := JobType.Dispatch (job w) in
      {| job := j; ran := ran w + (if called then 1 else 0);
         given := given w |}
  | Lifecycle.OpResubmit =>
      let '(h, _, j) := JobType.Resubmit Time_new (job w) in
      {| job := j; ran := ran w; given := given w + Lifecycle.yielded h |}
  | Lifecycle.OpRemove => w
  | Lifecycle.OpRevoked =>
      {| job := JobType.Revoked (job w); ran := ran w; given := given w |}
  end.

Definition acts (ops : list (Lifecycle.op Time)) (w : t) : t :=
  fold_left (fun w o => act o w) ops w.

Definition fresh (impl : IMPLEMENTATION) (addr : nat) : t :=
  {| job := JobType.make impl addr; ran := 0; given := 0 |}.

(** One more while the slot is SUBMITTED: its handle has not been used. *)
Definition pending (w : t) : nat :=
  if JobType.state_eqb (JobType._state (job w)) JobType.SUBMITTED
  then 1 else 0.

End Count.

Arguments t : clear implicits.

End Tally.

(** ** One slot in a running pool

    The slot together with the queue, the scheduler and the workers of the
    pool, and the steps the header's code takes on them.  Every worker is
    at a place in the loop of [Minion::Process]:

    - [Waiting]: in [_queue.Extract], holding nothing;
    - [Extracted]: a request extracted, [_runs] incremented;
    - [Dispatched]: back from [_dispatcher->Dispatch(request)];
    - [Closed]: back from [_parent.Closure] on the job, before
      [_currentRequest.Release()].

    The steps:

    - [Produce c r]: a producer calls [Idle], [Submit] or [Reschedule] on
      the slot; a handle it is given goes where [r] says.
    - [Fire n]: the scheduler hands its entry [n] to the pool.
    - [Extract k], [RunDispatch k], [RunClosure k now], [Release k]: worker
      [k] takes the next statement of its loop.
    - [CallRevoke], [PoolRevoke job waitTime caller], [CallRevoked]: the
      three calls of a revoker, [JobType::Revoke], [ThreadPool::Revoke]
      and [JobType::Revoked], each on its own.

    A step is [None] only when the control flow of the header rules it
    out: a worker takes the statements of its loop in order, and
    [Extract] does not return on an empty queue. *)

Module Handles.

Import ThreadPool.

Inductive phase : Type :=
  | Waiting
  | Extracted
  | Dispatched
  | Closed.

Definition working (p : phase) : bool :=
  match p with
  | Extracted | Dispatched => true
  | Waiting | Closed => false
  end.

Definition closed (p : phase) : bool :=
  match p with
  | Closed => true
  | Waiting | Extracted | Dispatched => false
  end.

(** A value stored in a [uint32_t]. *)
Definition uint32 (n : N) : N := N.modulo n 4294967296.

(** The head of the loop in [Minion::Process]: the extracted request is
    stored in [_currentRequest], then [_runs++]. *)
Definition take (e : Executor) (request : ProxyType) : Executor :=
  {| Id := Id e;
     _minion :=
       {| _signal := _signal (_minion e);
          _interestCount := _interestCount (_minion e);
          _currentRequest := request;
          _runs := uint32 (_runs (_minion e) + 1) |} |}.

(** [_currentRequest.Release()] *)
Definition release (e : Executor) : Executor :=
  {| Id := Id e;
     _minion :=
       {| _signal := _signal (_minion e);
          _interestCount := _interestCount (_minion e);
          _currentRequest := None;
          _runs := _runs (_minion e) |} |}.

(** The list [l] with [x] at position [k], and with position [n] taken
    out. *)
Fixpoint replace {A : Type} (k : nat) (x : A) (l : list A) : list A :=
  match l, k with
  | [], _ => []
  | _ :: rest, O => x :: rest
  | y :: rest, S k' => y :: replace k' x rest
  end.

Fixpoint erase {A : Type} (n : nat) (l : list A) : list A :=
  match l, n with
  | [], _ => []
  | _ :: rest, O => rest
  | y :: rest, S n' => y :: erase n' rest
  end.

Fixpoint count {A : Type} (p : A -> bool) (l : list A) : nat :=
  match l with
  | [] => 0
  | x :: rest => (if p x then 1 else 0) + count p rest
  end.

Definition current (x : Executor * phase) : ProxyType :=
  _currentRequest (_minion (fst x)).

Section System.

Context {Time : Type} `{TimeOps Time}.
Context {IMPLEMENTATION : Type} `{JobType.Implementation IMPLEMENTATION}.

#[local] Existing Instance ThreadPool.Worker.

Inductive call : Type :=
  | CallIdle
  | CallSubmit
  | CallReschedule (time : Time).

Inductive route : Type :=
  | ToQueue
  | ToScheduler (time : Time)
  | Dropped.

Inductive event : Type :=
  | Produce (c : call) (r : route)
  | Fire (n : nat)
  | Extract (k : nat)
  | RunDispatch (k : nat)
  | RunClosure (k : nat) (now : Time)
  | Release (k : nat)
  | CallRevoke
  | PoolRevoke (job : ProxyType) (waitTime : N) (caller : ThreadId)
  | CallRevoked.

Record t : Type := {
  queue : MessageQueue;
  scheduler : option (@IScheduler Time);
  workers : list (Executor * phase);
  slot : JobType.t Time IMPLEMENTATION
}.

(** The pool as the member functions of [ThreadPool] see it. *)
Definition pool_of (w : t) : ThreadPool.t Time :=
  {| _queue := queue w; _units := map fst (workers w);
     _scheduler := scheduler w |}.

Definition with_slot (w : t) (j : JobType.t Time IMPLEMENTATION) : t :=
  {| queue := queue w; scheduler := scheduler w; workers := workers w;
     slot := j |}.

Definition with_workers (w : t) (l : list (Executor * phase)) : t :=
  {| queue := queue w; scheduler := scheduler w; workers := l;
     slot := slot w |}.

(** What [ThreadPool::Closure] and [ThreadPool::Revoke] leave of the
    pool. *)
Definition with_pool (w : t) (pool : ThreadPool.t Time) : t :=
  {| queue := _queue pool; scheduler := _scheduler pool;
     workers := workers w; slot := slot w |}.

Definition perform (c : call) (j : JobType.t Time IMPLEMENTATION)
  : ProxyType * JobType.t Time IMPLEMENTATION :=
  match c with
  | CallIdle => JobType.Idle j
  | CallSubmit => JobType.Submit j
  | CallReschedule time => JobType.Reschedule time j
  end.

(** Modelled from the spec: the producers that call the slot are not part
    of the sources at hand.  A handle they are given is enqueued
    ([ThreadPool::Submit], which posts or inserts it), passed to the
    scheduler if the pool has one, or lost (an insert that timed out). *)
Definition deliver (r : route) (h : ProxyType) (w : t) : t :=
  match r with
  | ToQueue =>
      {| queue := Post (queue w) h; scheduler := scheduler w;
         workers := workers w; slot := slot w |}
  | ToScheduler time =>
      {| queue := queue w;
         scheduler := option_map (fun s => Schedule s time h) (scheduler w);
         workers := workers w; slot := slot w |}
  | Dropped => w
  end.

(** Modelled from the spec: an [IScheduler] implementation is not part of
    the sources at hand.  When the time of an entry has come the scheduler
    submits the handle to the pool; the entry is then gone. *)
Definition fire (n : nat) (w : t) : option t :=
  match scheduler w with
  | Some s =>
      match nth_error s n with
      | Some (_, h) =>
          Some {| queue := Post (queue w) h; scheduler := Some (erase n s);
                  workers := workers w; slot := slot w |}
      | None => None
      end
  | None => None
  end.

(** Modelled from the spec: [QueueType::Extract] ([Queue.h] is not part of
    the sources at hand) gives the head of the queue and does not return
    while the queue is empty.  The worker stores it and counts the run. *)
Definition extract (k : nat) (w : t) : option t :=
  match nth_error (workers w) k, queue w with
  | Some (e, Waiting), request :: rest =>
      Some {| queue := rest; scheduler := scheduler w;
              workers := replace k (take e request, Extracted) (workers w);
              slot := slot w |}
  | _, _ => None
  end.

(** Modelled from the spec: an [IDispatcher] implementation is not part of
    the sources at hand; its [Dispatch(request)] calls the request's
    [Dispatch()], which for a handle of the slot is [JobType::Dispatch]. *)
Definition run_dispatch (k : nat) (w : t) : option t :=
  match nth_error (workers w) k with
  | Some (e, Extracted) =>
      Some {| queue := queue w; scheduler := scheduler w;
              workers := replace k (e, Dispatched) (workers w);
              slot :=
                if ProxyType_eqb (_currentRequest (_minion e))
                     (JobType.handle (slot w))
                then snd (JobType.Dispatch (slot w))
                else slot w |}
  | _ => None
  end.

(** The request is cast to [IJob] and [_parent.Closure] is called on it: a
    handle of the slot casts to its [Worker]. *)
Definition run_closure (k : nat) (now : Time) (w : t) : option t :=
  match nth_error (workers w) k with
  | Some (e, Dispatched) =>
      if ProxyType_eqb (_currentRequest (_minion e)) (JobType.handle (slot w))
      then
        let (pool, j) := ThreadPool.Closure now (pool_of w) (slot w) in
        Some {| queue := _queue pool; scheduler := _scheduler pool;
                workers := replace k (e, Closed) (workers w); slot := j |}
      else Some (with_workers w (replace k (e, Closed) (workers w)))
  | _ => None
  end.

Definition run_release (k : nat) (w : t) : option t :=
  match nth_error (workers w) k with
  | Some (e, Closed) =>
      Some (with_workers w (replace k (release e, Waiting) (workers w)))
  | _ => None
  end.

Definition step (e : event) (w : t) : option t :=
  match e with
  | Produce c r =>
      let (h, j) := perform c (slot w) in
      Some (if IsValid h then deliver r h (with_slot w j) else with_slot w j)
  | Fire n => fire n w
  | Extract k => extract k w
  | RunDispatch k => run_dispatch k w
  | RunClosure k now => run_closure k now w
  | Release k => run_release k w
  | CallRevoke => Some (with_slot w (snd (JobType.Revoke (slot w))))
  | PoolRevoke job waitTime caller =>
      Some (with_pool w (snd (ThreadPool.Revoke (pool_of w) job waitTime
                                caller)))
  | CallRevoked => Some (with_slot w (JobType.Revoked (slot w)))
  end.

Fixpoint run (events : list event) (w : t) : option t :=
  match events with
  | [] => Some w
  | e :: rest =>
      match step e w with
      | Some w' => run rest w'
      | None => None
      end
  end.

(** A fresh slot in a pool as the constructor leaves it, with a scheduler
    that has not received anything yet, or with none. *)
Definition start (impl : IMPLEMENTATION) (addr : nat) (count : N)
    (threads : nat -> ThreadId * Event) (sched : bool) : t :=
  let pool :=
    Introspection.make (Time := Time) count threads
      (if sched then Some [] else None) in
  {| queue := _queue pool;
     scheduler := _scheduler pool;
     workers := map (fun e => (e, Waiting)) (_units pool);
     slot := JobType.make impl addr |}.

(** *** Where the handles of the slot are *)

Definition is_handle (h x : ProxyType) : bool := ProxyType_eqb x h.

Definition queued (h : ProxyType) (w : t) : nat :=
  count (is_handle h) (queue w).

Definition scheduled (h : ProxyType) (w : t) : nat :=
  match scheduler w with
  | Some s => count (fun entry => is_handle h (snd entry)) s
  | None => 0
  end.

(** Workers whose current request is the handle: all of them, those that
    have not yet run the closure for it, and those that have. *)
Definition holding (h : ProxyType) (w : t) : nat :=
  count (fun x => is_handle h (current x)) (workers w).

Definition at_work (h : ProxyType) (w : t) : nat :=
  count (fun x => is_handle h (current x) && working (snd x)) (workers w).

Definition finishing (h : ProxyType) (w : t) : nat :=
  count (fun x => is_handle h (current x) && closed (snd x)) (workers w).

(** The handles of the slot in the queue, with the scheduler or with a
    worker. *)
Definition outstanding (w : t) : nat :=
  queued (JobType.handle (slot w)) w + scheduled (JobType.handle (slot w)) w
  + holding (JobType.handle (slot w)) w.

(** The same, leaving out the workers that are past the closure. *)
Definition live (w : t) : nat :=
  queued (JobType.handle (slot w)) w + scheduled (JobType.handle (slot w)) w
  + at_work (JobType.handle (slot w)) w.

(** *** Two conditions on a run

    [Reschedule] is not called on a SUBMITTED slot, and [Revoked] is not
    called while a handle is live. *)
Definition allowed (e : event) (w : t) : bool :=
  match e with
  | Produce (CallReschedule _) _ =>
      negb (JobType.state_eqb (JobType._state (slot w)) JobType.SUBMITTED)
  | CallRevoked => Nat.eqb (live w) 0
  | _ => true
  end.

Fixpoint disciplined (events : list event) (w : t) : bool :=
  match events with
  | [] => true
  | e :: rest =>
      allowed e w &&
      match step e w with
      | Some w' => disciplined rest w'
      | None => true
      end
  end.

(** The statement that does not hold: at most one handle of the slot is
    outstanding, whatever the run. *)
Definition one_outstanding : Prop :=
  forall (impl : IMPLEMENTATION) (addr : nat) (count : N)
         (threads : nat -> ThreadId * Event) (sched : bool)
         (events : list event) (w : t),
    run events (start impl addr count threads sched) = Some w ->
    outstanding w <= 1.

(** What such runs keep: at most one handle is live, none while the slot
    is IDLE, and the handle stays the one of address [a]; a waiting worker
    holds nothing. *)
Definition steady (a : nat) (w : t) : Prop :=
  JobType._job (slot w) = a /\
  live w <= 1 /\
  (JobType._state (slot w) = JobType.IDLE -> live w = 0).

Definition rested (w : t) : Prop :=
  Forall (fun x => snd x = Waiting -> current x = None) (workers w).

End System.

Arguments call : clear implicits.
Arguments route : clear implicits.
Arguments event : clear implicits.
Arguments t : clear implicits.
Arguments one_outstanding Time {_} IMPLEMENTATION {_}.

End Handles.

(** ** Runs of a slot in a pool of two workers, used by the examples *)

Module HandleExamples.

Import Handles.

(** The threads of the workers: ids 10, 11, ..., events never signalled. *)
Definition threads (i : nat) : ThreadPool.ThreadId * ThreadPool.Event :=
  ((N.of_nat i + 10)%N, Examples.never).

(** A fresh slot of a counting body, handle address 1, in a fresh pool of
    two workers with a scheduler. *)
Definition two_workers : Handles.t Z nat := start 0 1 2%N threads true.

(** Submit, then reschedule before a worker picked the job up. *)
Definition submit_then_reschedule : list (event Z) :=
  [Produce CallSubmit ToQueue;
   Produce (CallReschedule 5%Z) (ToScheduler 5%Z)].

(** Submit again while the body runs: the closure posts the handle while
    the worker still holds it. *)
Definition resubmission : list (event Z) :=
  [Produce CallSubmit ToQueue; Extract 0; RunDispatch 0;
   Produce CallSubmit ToQueue; RunClosure 0 50%Z].

(** The body revokes its own job and submits it again. *)
Definition self_revoke : list (event Z) :=
  [Produce CallSubmit ToQueue; Extract 0; RunDispatch 0;
   CallRevoke; PoolRevoke (Some 1) 0%N 10%N; CallRevoked;
   Produce CallSubmit ToQueue].

(** A run that keeps both conditions: a resubmission while the body runs,
    a reschedule while it runs again, the scheduler handing the job back,
    a last run, and a submission that is revoked from the queue. *)
Definition busy_run : list (event Z) :=
  [Produce CallSubmit ToQueue; Extract 0; RunDispatch 0;
   Produce CallSubmit ToQueue; RunClosure 0 50%Z; Release 0;
   Extract 1; RunDispatch 1; Produce (CallReschedule 90%Z) Dropped;
   RunClosure 1 50%Z; Release 1;
   Fire 0; Extract 0; RunDispatch 0; RunClosure 0 100%Z; Release 0;
   Produce CallSubmit ToQueue; CallRevoke; PoolRevoke (Some 1) 0%N 99%N;
   CallRevoked].

Definition rested_worker (id runs : N) : ThreadPool.Executor * phase :=
  ({| ThreadPool.Id := id;
      ThreadPool._minion :=
        {| ThreadPool._signal := Examples.never;
           ThreadPool._interestCount := 0%N;
           ThreadPool._currentRequest := None;
           ThreadPool._runs := runs |} |}, Waiting).

Definition busy_end : Handles.t Z nat :=
  {| queue := []; scheduler := Some [];
     workers := [rested_worker 10 2; rested_worker 11 1];
     slot := {| JobType._implementation := 3; JobType._state := JobType.IDLE;
                JobType._job := 1; JobType._time := 90%Z |} |}.

End HandleExamples.

(** * Theorems *)

(** ** The state machine, one member function at a time *)

Section JobTypeFacts.

Import JobType.

Context {Time : Type} `{TimeOps Time}.
Context {IMPLEMENTATION : Type} `{Implementation IMPLEMENTATION}.

Implicit Types j : JobType.t Time IMPLEMENTATION.

Lemma state_eqb_eq (a b : state) : state_eqb a b = true <-> a = b.
Proof. destruct a, b; simpl; split; congruence. Qed.

Lemma with_state_same j : with_state j (_state j) = j.
Proof. destruct j; reflexivity. Qed.

(** [Submit] has no assignment to [_time]. *)
Lemma Submit_time j : _time (snd (Submit j)) = _time j.
Proof. destruct j as [i s a tm]; destruct s; reflexivity. Qed.

(** C5. The closure callback [Resubmit]: from EXECUTING the slot goes to
    IDLE and no handle is returned; from RESUBMIT it goes to SUBMITTED and
    a handle is returned, the time parameter being left as the caller
    passed it; from SCHEDULE it goes to SUBMITTED, a handle is returned and
    the stored [_time] is written to the time parameter; from IDLE,
    SUBMITTED and REVOKING no handle is returned and nothing changes.  A
    returned handle is the reference to [_job]; implementation, [_job] and
    stored time are never touched. *)
Theorem Resubmit_table (time : Time) j :
  (IsValid (fst (fst (Resubmit time j))) = true <->
   _state j = RESUBMIT \/ _state j = SCHEDULE) /\
  match _state j with
  | EXECUTING =>
      fst (fst (Resubmit time j)) = None /\
      snd (fst (Resubmit time j)) = time /\
      _state (snd (Resubmit time j)) = IDLE
  | RESUBMIT =>
      fst (fst (Resubmit time j)) = Some (_job j) /\
      snd (fst (Resubmit time j)) = time /\
      _state (snd (Resubmit time j)) = SUBMITTED
  | SCHEDULE =>
      fst (fst (Resubmit time j)) = Some (_job j) /\
      snd (fst (Resubmit time j)) = _time j /\
      _state (snd (Resubmit time j)) = SUBMITTED
  | IDLE | SUBMITTED | REVOKING => Resubmit time j = (None, time, j)
  end /\
  _implementation (snd (Resubmit time j)) = _implementation j /\
  _job (snd (Resubmit time j)) = _job j /\
  _time (snd (Resubmit time j)) = _time j.
Proof.
  destruct j as [i s a tm]; destruct s; simpl;
    (split; [split; [intros E; try discriminate E; auto
                    |intros [E | E]; try discriminate E; reflexivity]|]);
    repeat split.
Qed.

(** C6. The worker callback [Dispatch] calls the body of the implementation
    if and only if the slot was SUBMITTED; the slot is then EXECUTING, and
    was so already when the body ran.  From every other state the body is
    skipped and the slot is unchanged. *)
Theorem Dispatch_table j :
  (fst (Dispatch j) = true <-> _state j = SUBMITTED) /\
  Dispatch j =
    match _state j with
    | SUBMITTED =>
        (true,
         {| _implementation :=
              Implementation_Dispatch EXECUTING (_implementation j);
            _state := EXECUTING; _job := _job j; _time := _time j |})
    | IDLE | EXECUTING | RESUBMIT | SCHEDULE | REVOKING => (false, j)
    end.
Proof.
  destruct j as [i s a tm]; destruct s; simpl; split;
    try reflexivity; split; congruence.
Qed.

(** C7. [Revoke] returns a handle if and only if the slot is not IDLE: a
    REVOKING slot stays as it is, a SUBMITTED, EXECUTING, RESUBMIT or
    SCHEDULE slot becomes REVOKING, and an IDLE slot is left unchanged with
    no handle.  The handle is the reference to [_job]; implementation,
    [_job] and stored time are never touched. *)
Theorem Revoke_table j :
  (IsValid (fst (Revoke j)) = true <-> _state j <> IDLE) /\
  match _state j with
  | IDLE => Revoke j = (None, j)
  | REVOKING => fst (Revoke j) = Some (_job j) /\ snd (Revoke j) = j
  | SUBMITTED | EXECUTING | RESUBMIT | SCHEDULE =>
      fst (Revoke j) = Some (_job j) /\
      _state (snd (Revoke j)) = REVOKING
  end /\
  _implementation (snd (Revoke j)) = _implementation j /\
  _job (snd (Revoke j)) = _job j /\
  _time (snd (Revoke j)) = _time j.
Proof.
  destruct j as [i s a tm]; destruct s; simpl;
    (split; [split; congruence|]); repeat split.
Qed.

(** [Revoked] takes a REVOKING slot back to IDLE and does nothing else. *)
Lemma Revoked_table j :
  Revoked j =
    match _state j with
    | REVOKING => with_state j IDLE
    | _ => j
    end.
Proof. destruct j as [i s a tm]; destruct s; reflexivity. Qed.

Lemma Idle_table j :
  Idle j =
    match _state j with
    | IDLE => (handle j, with_state j SUBMITTED)
    | _ => (None, j)
    end.
Proof. destruct j as [i s a tm]; destruct s; reflexivity. Qed.

(** The whole of [Reschedule]: the time is stored by the calls that give no
    handle, and only by them. *)
Lemma Reschedule_table (time : Time) j :
  Reschedule time j =
    match _state j with
    | IDLE | SUBMITTED => (handle j, with_state j SCHEDULE)
    | EXECUTING | RESUBMIT =>
        (None, with_time (with_state j SCHEDULE) time)
    | SCHEDULE | REVOKING => (None, with_time j time)
    end.
Proof. destruct j as [i s a tm]; destruct s; reflexivity. Qed.

(** C2, as the header has it. [Submit] returns a handle if and only if the
    slot was IDLE, which becomes SUBMITTED; an EXECUTING or SCHEDULE slot
    becomes RESUBMIT with no handle; a SUBMITTED, RESUBMIT or REVOKING slot
    is unchanged with no handle.  [Submit] never writes [_time]: a slot
    leaving SCHEDULE keeps the time it had stored, and the closure that
    takes it out of RESUBMIT does not report that time. *)
Theorem Submit_table j :
  (IsValid (fst (Submit j)) = true <-> _state j = IDLE) /\
  Submit j =
    match _state j with
    | IDLE => (handle j, with_state j SUBMITTED)
    | EXECUTING | SCHEDULE => (None, with_state j RESUBMIT)
    | SUBMITTED | RESUBMIT | REVOKING => (None, j)
    end /\
  _time (snd (Submit j)) = _time j /\
  (_state j = SCHEDULE ->
   forall time : Time,
     Resubmit time (snd (Submit j)) =
       (handle j, time, with_state j SUBMITTED)).
Proof.
  destruct j as [i s a tm]; destruct s; simpl;
    (split; [split; congruence|]); (split; [reflexivity|]);
    (split; [reflexivity|]); intros E; try discriminate E; reflexivity.
Qed.

(** C3, as the header has it. [Reschedule time] on a SUBMITTED or IDLE slot
    takes it to SCHEDULE and returns a handle, and leaves the stored
    [_time] as it was: [time] travels with the handle only. *)
Theorem Reschedule_yields (time : Time) j :
  _state j = SUBMITTED \/ _state j = IDLE ->
  Reschedule time j = (handle j, with_state j SCHEDULE) /\
  IsValid (fst (Reschedule time j)) = true /\
  _state (snd (Reschedule time j)) = SCHEDULE /\
  _time (snd (Reschedule time j)) = _time j.
Proof.
  intros E. rewrite Reschedule_table.
  destruct E as [E | E]; rewrite E; simpl; auto.
Qed.

(** C4, as the header has it. [Reschedule time] on a REVOKING or SCHEDULE
    slot returns no handle and leaves the state as it was, and overwrites
    the stored [_time] with [time]. *)
Theorem Reschedule_overwrites (time : Time) j :
  _state j = REVOKING \/ _state j = SCHEDULE ->
  Reschedule time j = (None, with_time j time) /\
  _state (snd (Reschedule time j)) = _state j /\
  _time (snd (Reschedule time j)) = time.
Proof.
  intros E. rewrite Reschedule_table.
  destruct E as [E | E]; rewrite E; simpl; auto.
Qed.

End JobTypeFacts.

(** ** Where handles come from *)

Section LifecycleFacts.

Import JobType.

Context {Time : Type} `{TimeOps Time}.
Context {IMPLEMENTATION : Type} `{Implementation IMPLEMENTATION}.

(** Where handles come from: [Idle] and [Submit] give one only from IDLE,
    [Resubmit] only from RESUBMIT and SCHEDULE, [Reschedule] from IDLE and
    from SUBMITTED. *)
Lemma yield_states (time : Time) (j : JobType.t Time IMPLEMENTATION) :
  (IsValid (fst (Idle j)) = true <-> _state j = IDLE) /\
  (IsValid (fst (Submit j)) = true <-> _state j = IDLE) /\
  (IsValid (fst (fst (Resubmit time j))) = true <->
     _state j = RESUBMIT \/ _state j = SCHEDULE) /\
  (IsValid (fst (Reschedule time j)) = true <->
     _state j = IDLE \/ _state j = SUBMITTED).
Proof.
  destruct j as [i s a tm]; destruct s; simpl;
    repeat split; intros; auto; try discriminate;
    match goal with
    | E : _ \/ _ |- _ => destruct E; discriminate
    end.
Qed.

End LifecycleFacts.

(** ** The pool: revoke and closure *)

Section ThreadPoolFacts.

Import ThreadPool.

Context {Time : Type} `{TimeOps Time}.

Implicit Types pool : ThreadPool.t Time.
Implicit Types units : list Executor.

Lemma ProxyType_eqb_eq (a b : ProxyType) : ProxyType_eqb a b = true <-> a = b.
Proof.
  destruct a as [x|], b as [y|]; simpl; split; intros E;
    try discriminate E; try reflexivity.
  - apply Nat.eqb_eq in E. congruence.
  - injection E as ->. apply Nat.eqb_refl.
Qed.

(** [Remove] reports a handle exactly when the queue holds it, and leaves a
    queue without it untouched. *)
Lemma Remove_found (q : MessageQueue) (job : ProxyType) :
  fst (Remove q job) = true <-> In job q.
Proof.
  induction q as [|entry rest IH]; simpl.
  - split; [discriminate | tauto].
  - destruct (ProxyType_eqb entry job) eqn:E.
    + apply ProxyType_eqb_eq in E. simpl. tauto.
    + destruct (Remove rest job) as [found rest'] eqn:R. simpl in *.
      split.
      * intros F. right. apply IH. exact F.
      * intros [F | F].
        -- apply ProxyType_eqb_eq in F. congruence.
        -- apply IH. exact F.
Qed.

Lemma Remove_missing (q : MessageQueue) (job : ProxyType) :
  fst (Remove q job) = false -> snd (Remove q job) = q.
Proof.
  induction q as [|entry rest IH]; simpl; [reflexivity|].
  destruct (ProxyType_eqb entry job); simpl; [discriminate|].
  destruct (Remove rest job) as [found rest']. simpl in *.
  intros F. rewrite (IH F). reflexivity.
Qed.

(** [Completed] answers UNKNOWN_KEY exactly when the worker is not running
    the job, and only then returns without blocking. *)
Lemma Completed_cases (m : Minion) (job : ProxyType) (waitTime : N) :
  (ProxyType_eqb (_currentRequest m) job = false /\
   Completed m job waitTime = (ERROR_UNKNOWN_KEY, false)) \/
  (ProxyType_eqb (_currentRequest m) job = true /\
   (Completed m job waitTime = (ERROR_NONE, true) \/
    Completed m job waitTime = (ERROR_TIMEDOUT, true))).
Proof.
  unfold Completed, Event_Lock.
  destruct (ProxyType_eqb (_currentRequest m) job); simpl; [right | left]; auto.
  destruct (signalled_within (_signal m) waitTime); auto.
Qed.

(** Once [result] is no longer UNKNOWN_KEY the loop is over. *)
Lemma Revoke_loop_decided units job waitTime caller result waits :
  result <> ERROR_UNKNOWN_KEY ->
  Revoke_loop units job waitTime caller result waits = (result, waits).
Proof.
  intros D. destruct units; simpl; [reflexivity|].
  destruct result; simpl; congruence.
Qed.

Lemma Revoke_loop_first units job waitTime caller :
  forall waits,
    fst (Revoke_loop units job waitTime caller ERROR_UNKNOWN_KEY waits) =
    RevokeSpec.first_outcome units job waitTime caller.
Proof.
  induction units as [|w rest IH]; intros waits; simpl; [reflexivity|].
  destruct (N.eqb (Id w) caller).
  - rewrite Revoke_loop_decided by discriminate. reflexivity.
  - destruct (Completed (Me w) job waitTime) as [outcome blocked].
    destruct outcome; simpl.
    + rewrite Revoke_loop_decided by discriminate. reflexivity.
    + rewrite Revoke_loop_decided by discriminate. reflexivity.
    + apply IH.
Qed.

(** C8. [ThreadPool::Revoke] returns OK if the handle is removed from the
    queue; otherwise it goes through the workers in order, returns OK at
    the first worker whose thread id is the caller's, and else returns the
    first answer of a worker's [Completed] that is OK or TIMEDOUT, passing
    over the workers that answer UNKNOWN_KEY; if no worker decides, the
    result is UNKNOWN_KEY. *)
Theorem Revoke_outcome pool (job : ProxyType) (waitTime : N)
    (caller : ThreadId) :
  fst (fst (Revoke pool job waitTime caller)) =
  RevokeSpec.outcome pool job waitTime caller.
Proof.
  unfold Revoke, RevokeSpec.outcome.
  destruct (Remove (_queue pool) job) as [removed q]. simpl.
  destruct removed; [reflexivity|].
  rewrite <- (Revoke_loop_first (_units pool) job waitTime caller []).
  destruct (Revoke_loop (_units pool) job waitTime caller ERROR_UNKNOWN_KEY [])
    as [result waits].
  reflexivity.
Qed.

(** The workers before the caller's own, none of which decides. *)
Lemma Revoke_loop_reaches_caller (pre post : list Executor) (me : Executor)
    job waitTime :
  Forall (fun w =>
            fst (Completed (Me w) job waitTime) <> ERROR_NONE /\
            fst (Completed (Me w) job waitTime) <> ERROR_TIMEDOUT) pre ->
  Revoke_loop (pre ++ me :: post) job waitTime (Id me) ERROR_UNKNOWN_KEY [] =
  (ERROR_NONE, []).
Proof.
  induction 1 as [|w pre' [Hok Hto] _ IH]; simpl.
  - rewrite N.eqb_refl. apply Revoke_loop_decided. discriminate.
  - destruct (N.eqb (Id w) (Id me)).
    + apply Revoke_loop_decided. discriminate.
    + destruct (Completed_cases (Me w) job waitTime) as [[_ E] | [_ [E | E]]];
        rewrite E in *; simpl in *; [exact IH | congruence | congruence].
Qed.

(** C10. When [ThreadPool::Revoke] is called from one of the pool's worker
    threads, the handle is not in the queue and no worker earlier in the
    list answers OK or TIMEDOUT, the call returns OK and has blocked on no
    worker's signal.  Nothing is asked of the job the caller's worker is
    running, nor of the workers later in the list: one of them may be
    running the revoked job. *)
Theorem Revoke_from_worker pool (job : ProxyType) (waitTime : N)
    (caller : ThreadId) (pre post : list Executor) (me : Executor) :
  _units pool = pre ++ me :: post ->
  Id me = caller ->
  fst (Remove (_queue pool) job) = false ->
  Forall (fun w =>
            fst (Completed (Me w) job waitTime) <> ERROR_NONE /\
            fst (Completed (Me w) job waitTime) <> ERROR_TIMEDOUT) pre ->
  fst (Revoke pool job waitTime caller) = (ERROR_NONE, []).
Proof.
  intros Hunits <- Hq Hpre. unfold Revoke.
  destruct (Remove (_queue pool) job) as [removed q]. simpl in Hq.
  rewrite Hq, Hunits.
  rewrite (@Revoke_loop_reaches_caller pre post me job waitTime Hpre).
  reflexivity.
Qed.

Lemma Post_grows (q : MessageQueue) (job : ProxyType) : Post q job <> q.
Proof.
  unfold Post. intros E. apply (f_equal (@length _)) in E.
  rewrite length_app in E. simpl in E. lia.
Qed.

(** C9. When the job's [Resubmit] returns a valid handle, [Closure] posts
    it on the queue exactly when the returned time is not valid, or the
    pool has no scheduler, or the time lies before the current time; in
    every other case it gives the handle to the scheduler with that time.
    One of the two routes is taken, never both. *)
Theorem Closure_routes {J : Type} `{IJob Time J} (now : Time) pool (job : J)
    (resubmit : ProxyType) (time : Time) (job' : J) :
  IJob_Resubmit Time_new job = (resubmit, time, job') ->
  IsValid resubmit = true ->
  (posted pool (fst (Closure now pool job)) resubmit <->
     posts_when pool time now) /\
  (handed_over pool (fst (Closure now pool job)) time resubmit <->
     ~ posts_when pool time now) /\
  (posted pool (fst (Closure now pool job)) resubmit \/
   handed_over pool (fst (Closure now pool job)) time resubmit) /\
  ~ (posted pool (fst (Closure now pool job)) resubmit /\
     handed_over pool (fst (Closure now pool job)) time resubmit) /\
  snd (Closure now pool job) = job'.
Proof.
  intros Hres Hvalid. unfold Closure. rewrite Hres, Hvalid.
  assert (Hc : posts_when pool time now <->
               negb (Time_IsValid time) || scheduler_is_null pool
               || Time_lt time now = true).
  { unfold posts_when, scheduler_is_null.
    destruct (Time_IsValid time), (_scheduler pool), (Time_lt time now);
      simpl; intuition congruence. }
  destruct (negb (Time_IsValid time) || scheduler_is_null pool
            || Time_lt time now) eqn:C; simpl.
  - assert (P : posted pool (with_queue pool (Post (_queue pool) resubmit))
                  resubmit) by (repeat split).
    assert (N : ~ handed_over pool
                    (with_queue pool (Post (_queue pool) resubmit))
                    time resubmit).
    { intros (Q & _). simpl in Q. exact (@Post_grows _ _ Q). }
    intuition.
  - assert (S : exists s, _scheduler pool = Some s).
    { unfold scheduler_is_null in C.
      destruct (_scheduler pool) as [s|]; [exists s; reflexivity|].
      rewrite orb_true_r in C. discriminate C. }
    destruct S as (s & S).
    assert (P : handed_over pool
                  (with_scheduler pool
                     (option_map (fun s => Schedule s time resubmit)
                        (_scheduler pool))) time resubmit).
    { repeat split. exists s. simpl. rewrite S. split; reflexivity. }
    assert (N : ~ posted pool
                    (with_scheduler pool
                       (option_map (fun s => Schedule s time resubmit)
                          (_scheduler pool))) resubmit).
    { intros (Q & _). simpl in Q. symmetry in Q. exact (@Post_grows _ _ Q). }
    assert (F : ~ posts_when pool time now) by (rewrite Hc; discriminate).
    intuition.
Qed.

End ThreadPoolFacts.

(** ** Examples on the concrete clock *)

Section Worked.

Import JobType Examples.

#[local] Existing Instance ThreadPool.Worker.

(** C2 does not hold as stated: a SCHEDULE slot that stored time 7 still
    stores it after [Submit]. *)
Lemma Submit_drops_time_refuted : ~ Stated.Submit_drops_time Z nat.
Proof.
  intros C. destruct (C (slot_in SCHEDULE 7)) as (_ & _ & _ & D).
  discriminate D.
Qed.

(** The time a slot kept across [Submit] comes back: after the closure, a
    reschedule for 9 of the SUBMITTED slot and the next closure, the time
    reported is the old 7. *)
Example kept_time_resurfaces :
  let j1 := snd (Submit (slot_in SCHEDULE 7)) in
  let j2 := snd (Resubmit 0%Z j1) in
  let j3 := snd (Reschedule 9%Z j2) in
  Resubmit 0%Z j3 = (Some 1, 7%Z, slot_in SUBMITTED 7).
Proof. reflexivity. Qed.

(** C3 does not hold as stated: a fresh slot rescheduled for 5 is in
    SCHEDULE and stores the default time. *)
Lemma Reschedule_stores_time_refuted : ~ Stated.Reschedule_stores_time Z nat.
Proof.
  intros C. destruct (C 5%Z (make 0 1) (or_intror eq_refl)) as (_ & _ & D).
  discriminate D.
Qed.

(** A slot can be in SCHEDULE with a time that no reschedule wrote. *)
Example SCHEDULE_without_time :
  Reschedule 5%Z (make 0 1) = (Some 1, slot_in SCHEDULE 0).
Proof. reflexivity. Qed.

Lemma Reschedule_yields_witness :
  (_state (slot_in SUBMITTED 3) = SUBMITTED \/
   _state (slot_in SUBMITTED 3) = IDLE) /\
  Reschedule 5%Z (slot_in SUBMITTED 3) = (Some 1, slot_in SCHEDULE 3) /\
  IsValid (fst (Reschedule 5%Z (slot_in SUBMITTED 3))) = true /\
  _state (snd (Reschedule 5%Z (slot_in SUBMITTED 3))) = SCHEDULE /\
  _time (snd (Reschedule 5%Z (slot_in SUBMITTED 3))) = 3%Z.
Proof.
  split; [left; reflexivity|].
  apply (@Reschedule_yields Z nat 5%Z (slot_in SUBMITTED 3)).
  left; reflexivity.
Defined.

(** C4 does not hold as stated: a SCHEDULE slot that stored time 1 stores
    2 after [Reschedule 2]. *)
Lemma Reschedule_changes_nothing_refuted :
  ~ Stated.Reschedule_changes_nothing Z nat.
Proof.
  intros C.
  assert (D := C 2%Z (slot_in SCHEDULE 1) (or_intror eq_refl)).
  discriminate D.
Qed.

Lemma Reschedule_overwrites_witness :
  (_state (slot_in SCHEDULE 1) = REVOKING \/
   _state (slot_in SCHEDULE 1) = SCHEDULE) /\
  Reschedule 2%Z (slot_in SCHEDULE 1) = (None, slot_in SCHEDULE 2) /\
  _state (snd (Reschedule 2%Z (slot_in SCHEDULE 1))) = SCHEDULE /\
  _time (snd (Reschedule 2%Z (slot_in SCHEDULE 1))) = 2%Z.
Proof.
  split; [right; reflexivity|].
  apply (@Reschedule_overwrites Z nat 2%Z (slot_in SCHEDULE 1)).
  right; reflexivity.
Defined.

(** [Revoke] on the three workers, from a thread that is none of them:
    job 4 is taken from the queue, job 1 is running on the third worker,
    whose event is not signalled in time, and job 9 is nowhere. *)
Example Revoke_queued :
  ThreadPool.Revoke three_workers (Some 4) 0%N 99%N =
  (ThreadPool.ERROR_NONE, [], ThreadPool.with_queue three_workers []).
Proof. reflexivity. Qed.

Example Revoke_running :
  fst (ThreadPool.Revoke three_workers (Some 1) 0%N 99%N) =
  (ThreadPool.ERROR_TIMEDOUT, [30%N]).
Proof. reflexivity. Qed.

Example Revoke_unknown :
  fst (ThreadPool.Revoke three_workers (Some 9) 0%N 99%N) =
  (ThreadPool.ERROR_UNKNOWN_KEY, []).
Proof. reflexivity. Qed.

(** The second worker revokes job 1, which the third worker is running. *)
Lemma Revoke_from_worker_witness :
  ThreadPool._units three_workers =
    [worker 10%N None] ++ worker 20%N (Some 7) :: [worker 30%N (Some 1)] /\
  ThreadPool.Id (worker 20%N (Some 7)) = 20%N /\
  fst (ThreadPool.Remove (ThreadPool._queue three_workers) (Some 1)) = false /\
  fst (ThreadPool.Revoke three_workers (Some 1) 0%N 20%N) =
    (ThreadPool.ERROR_NONE, []).
Proof.
  split; [reflexivity|]. split; [reflexivity|]. split; [reflexivity|].
  apply (@Revoke_from_worker Z three_workers (Some 1) 0%N 20%N
           [worker 10%N None] [worker 30%N (Some 1)] (worker 20%N (Some 7)));
    try reflexivity.
  constructor; [|constructor]. simpl. split; discriminate.
Defined.

(** A slot rescheduled while it ran, for time 100: at time 50 the closure
    gives the handle to the scheduler; at time 150 it posts it. *)
Lemma Closure_routes_witness :
  ThreadPool.IJob_Resubmit Time_new (slot_in SCHEDULE 100) =
    (Some 1, 100%Z, slot_in SUBMITTED 100) /\
  IsValid (Some 1) = true /\
  ThreadPool.handed_over three_workers
    (fst (ThreadPool.Closure 50%Z three_workers (slot_in SCHEDULE 100)))
    100%Z (Some 1) /\
  ~ ThreadPool.posted three_workers
      (fst (ThreadPool.Closure 50%Z three_workers (slot_in SCHEDULE 100)))
      (Some 1).
Proof.
  split; [reflexivity|]. split; [reflexivity|].
  destruct (@Closure_routes Z Ticks _ ThreadPool.Worker 50%Z three_workers
              (slot_in SCHEDULE 100) (Some 1) 100%Z (slot_in SUBMITTED 100)
              eq_refl eq_refl) as (P & S & _ & _ & _).
  assert (F : ~ ThreadPool.posts_when three_workers 100%Z 50%Z).
  { unfold ThreadPool.posts_when. simpl.
    intros [E | [E | E]]; discriminate E. }
  split.
  - apply S. exact F.
  - intros Q. apply F. apply P. exact Q.
Defined.

Example Closure_posts_late :
  fst (ThreadPool.Closure 150%Z three_workers (slot_in SCHEDULE 100)) =
  ThreadPool.with_queue three_workers [Some 4; Some 1].
Proof. reflexivity. Qed.

Example Closure_quiet :
  ThreadPool.Closure 150%Z three_workers (slot_in EXECUTING 100) =
  (three_workers, slot_in IDLE 100).
Proof. reflexivity. Qed.

End Worked.

(** * Further properties *)

(** ** The state machine: how the member functions compose *)

Section JobTypeComposed.

Import JobType.

Context {Time : Type} `{TimeOps Time}.
Context {IMPLEMENTATION : Type} `{Implementation IMPLEMENTATION}.

Implicit Types j : JobType.t Time IMPLEMENTATION.

(** A second [Submit] right after a first gives no handle and changes
    nothing, whatever state the slot was in. *)
Theorem Submit_idempotent j :
  Submit (snd (Submit j)) = (None, snd (Submit j)).
Proof. destruct j as [i s a tm]; destruct s; reflexivity. Qed.

(** On a slot that is not IDLE, [Revoke] returns the handle and the
    [Revoked] that follows finds the slot REVOKING: its exchange succeeds,
    so its [ASSERT] holds, and it leaves the slot IDLE with implementation,
    [_job] and stored time as they were before [Revoke]. *)
Theorem Revoke_Revoked_idle j :
  _state j <> IDLE ->
  fst (Revoke j) = Some (_job j) /\
  fst (compare_exchange_strong REVOKING IDLE (_state (snd (Revoke j)))) = true /\
  _state (Revoked (snd (Revoke j))) = IDLE /\
  _implementation (Revoked (snd (Revoke j))) = _implementation j /\
  _job (Revoked (snd (Revoke j))) = _job j /\
  _time (Revoked (snd (Revoke j))) = _time j.
Proof.
  destruct j as [i s a tm]; destruct s; simpl; intros V;
    try (exfalso; apply V; reflexivity); repeat split.
Qed.

(** While a slot is REVOKING, [Idle], [Submit], [Reschedule] and the
    closure give no handle, [Dispatch] does not run the body, and the slot
    stays REVOKING; [Revoke] gives the handle again. *)
Theorem REVOKING_holds (time : Time) j :
  _state j = REVOKING ->
  Idle j = (None, j) /\
  Submit j = (None, j) /\
  Reschedule time j = (None, with_time j time) /\
  Resubmit time j = (None, time, j) /\
  Dispatch j = (false, j) /\
  Revoke j = (handle j, j).
Proof.
  destruct j as [i s a tm]; simpl; intros ->; repeat split.
Qed.

(** No member function but [Dispatch] takes a slot into EXECUTING, and
    [Dispatch] does so from SUBMITTED only; [Submit] and [Reschedule] never
    leave a slot EXECUTING. *)
Theorem EXECUTING_only_by_Dispatch (time : Time) j :
  (_state (snd (Idle j)) = EXECUTING -> _state j = EXECUTING) /\
  _state (snd (Submit j)) <> EXECUTING /\
  _state (snd (Reschedule time j)) <> EXECUTING /\
  _state (snd (Revoke j)) <> EXECUTING /\
  (_state (Revoked j) = EXECUTING -> _state j = EXECUTING) /\
  _state (snd (Resubmit time j)) <> EXECUTING /\
  (_state (snd (Dispatch j)) = EXECUTING ->
   _state j = EXECUTING \/ (_state j = SUBMITTED /\ fst (Dispatch j) = true)).
Proof.
  destruct j as [i s a tm]; destruct s; simpl;
    repeat split; intros; try discriminate; auto.
Qed.

(** One cycle of an idle slot: [Submit] gives the handle, [Dispatch] runs
    the body, and the closure gives no handle and leaves the slot IDLE with
    the body applied once and the time parameter untouched. *)
Theorem cycle_from_idle (time : Time) j :
  _state j = IDLE ->
  fst (Submit j) = handle j /\
  fst (Dispatch (snd (Submit j))) = true /\
  Resubmit time (snd (Dispatch (snd (Submit j)))) =
    (None, time,
     {| _implementation :=
          Implementation_Dispatch EXECUTING (_implementation j);
        _state := IDLE; _job := _job j; _time := _time j |}).
Proof.
  destruct j as [i s a tm]; simpl; intros ->; repeat split.
Qed.

(** [Submit] called [n] times in a row. *)
Lemma Submit_repeated j (n : nat) :
  Nat.iter (S n) (fun x => snd (Submit x)) j = snd (Submit j).
Proof.
  induction n as [|n IH]; [reflexivity|].
  change (Nat.iter (S (S n)) (fun x => snd (Submit x)) j)
    with (snd (Submit (Nat.iter (S n) (fun x => snd (Submit x)) j))).
  rewrite IH. destruct j as [i s a tm]; destruct s; reflexivity.
Qed.

(** Any number of [Submit] calls while the body runs, one or more, amount
    to one resubmission: the closure gives one handle and leaves the slot
    SUBMITTED, and the cycle after that ends IDLE with no further handle. *)
Theorem Submits_coalesce (time : Time) j (n : nat) :
  _state j = EXECUTING ->
  let busy := Nat.iter (S n) (fun x => snd (Submit x)) j in
  Resubmit time busy = (handle j, time, with_state j SUBMITTED) /\
  Resubmit time (snd (Dispatch (snd (Resubmit time busy)))) =
    (None, time,
     {| _implementation :=
          Implementation_Dispatch EXECUTING (_implementation j);
        _state := IDLE; _job := _job j; _time := _time j |}).
Proof.
  intros E busy. unfold busy. rewrite Submit_repeated.
  destruct j as [i s a tm]; simpl in *; subst s; split; reflexivity.
Qed.

(** While the body runs, the later of [Submit] and [Reschedule] decides
    what the closure does: after [Reschedule] then [Submit] it gives the
    handle with no time, after [Submit] then [Reschedule time] it gives the
    handle with [time]. *)
Theorem last_request_wins (unset time : Time) j :
  _state j = EXECUTING ->
  Resubmit unset (snd (Submit (snd (Reschedule time j)))) =
    (handle j, unset, with_time (with_state j SUBMITTED) time) /\
  Resubmit unset (snd (Reschedule time (snd (Submit j)))) =
    (handle j, time, with_time (with_state j SUBMITTED) time).
Proof.
  destruct j as [i s a tm]; simpl; intros ->; split; reflexivity.
Qed.

(** Every handle a member function returns is the slot's one handle, no
    member function changes what that handle refers to, none but [Dispatch]
    touches the implementation, and none but [Reschedule] writes the stored
    time. *)
Theorem handle_is_stable (time : Time) j :
  (forall h,
     In h [fst (Idle j); fst (Submit j); fst (Reschedule time j);
           fst (Revoke j); fst (fst (Resubmit time j))] ->
     h = None \/ h = handle j) /\
  (forall j',
     In j' [snd (Idle j); snd (Submit j); snd (Reschedule time j);
            snd (Revoke j); Revoked j; snd (Resubmit time j);
            snd (Dispatch j)] ->
     handle j' = handle j) /\
  (forall j',
     In j' [snd (Idle j); snd (Submit j); snd (Reschedule time j);
            snd (Revoke j); Revoked j; snd (Resubmit time j)] ->
     _implementation j' = _implementation j) /\
  (forall j',
     In j' [snd (Idle j); snd (Submit j); snd (Revoke j); Revoked j;
            snd (Resubmit time j); snd (Dispatch j)] ->
     _time j' = _time j).
Proof.
  destruct j as [i s a tm]; destruct s; simpl;
    repeat split; intros x Hx;
    repeat (destruct Hx as [<- | Hx]; [auto|]); destruct Hx.
Qed.

End JobTypeComposed.

(** ** Body runs never exceed the handles given out *)

Section TallyFacts.

Import JobType Tally.

Context {Time : Type} `{TimeOps Time}.
Context {IMPLEMENTATION : Type} `{Implementation IMPLEMENTATION}.

Implicit Types w : Tally.t Time IMPLEMENTATION.

Lemma act_keeps_bound (o : Lifecycle.op Time) w :
  ran w + pending w <= given w ->
  ran (act o w) + pending (act o w) <= given (act o w).
Proof.
  destruct w as [[i s a tm] r g]. unfold pending.
  destruct o; destruct s; cbn; intros B; lia.
Qed.

Lemma acts_keep_bound (ops : list (Lifecycle.op Time)) :
  forall w,
    ran w + pending w <= given w ->
    ran (acts ops w) + pending (acts ops w) <= given (acts ops w).
Proof.
  unfold acts. induction ops as [|o rest IH]; simpl; intros w B; [exact B|].
  apply IH. apply act_keeps_bound. exact B.
Qed.

(** Whatever member functions are called on a fresh slot, in whatever
    order, the body has run at most as often as [Idle], [Submit] and the
    closure have given out a handle, and once less while the slot is
    SUBMITTED. *)
Theorem body_runs_within_handles (impl : IMPLEMENTATION) (addr : nat)
    (ops : list (Lifecycle.op Time)) :
  ran (acts ops (fresh impl addr)) + pending (acts ops (fresh impl addr))
    <= given (acts ops (fresh impl addr)).
Proof. apply acts_keep_bound. cbn. lia. Qed.

End TallyFacts.

(** ** The pool: more on revoke and closure *)

Section ThreadPoolMore.

Import ThreadPool.

Context {Time : Type} `{TimeOps Time}.

Implicit Types pool : ThreadPool.t Time.
Implicit Types units : list Executor.

Lemma with_queue_same pool : with_queue pool (_queue pool) = pool.
Proof. destruct pool; reflexivity. Qed.

Lemma ProxyType_eqb_neq (a b : ProxyType) :
  ProxyType_eqb a b = false <-> a <> b.
Proof.
  split.
  - intros E F. apply ProxyType_eqb_eq in F. congruence.
  - intros F. destruct (ProxyType_eqb a b) eqn:E; [|reflexivity].
    apply ProxyType_eqb_eq in E. contradiction.
Qed.

Lemma Remove_absent (q : MessageQueue) (job : ProxyType) :
  ~ In job q -> Remove q job = (false, q).
Proof.
  induction q as [|entry rest IH]; simpl; intros A; [reflexivity|].
  destruct (ProxyType_eqb entry job) eqn:E.
  - apply ProxyType_eqb_eq in E. tauto.
  - rewrite IH by tauto. reflexivity.
Qed.

Lemma Remove_present (q : MessageQueue) (job : ProxyType) :
  In job q ->
  exists before after,
    q = before ++ job :: after /\ ~ In job before /\
    Remove q job = (true, before ++ after).
Proof.
  induction q as [|entry rest IH]; simpl; intros A; [contradiction|].
  destruct (ProxyType_eqb entry job) eqn:E.
  - apply ProxyType_eqb_eq in E. subst entry.
    exists [], rest. simpl. auto.
  - apply ProxyType_eqb_neq in E.
    destruct A as [A | A]; [contradiction|].
    destruct (IH A) as (before & after & Q & NB & R).
    exists (entry :: before), after. simpl. rewrite R, Q.
    repeat split; auto. intros [F | F]; auto.
Qed.

(** Taking out what was posted last gives the queue back. *)
Lemma Remove_Post (q : MessageQueue) (job : ProxyType) :
  ~ In job q -> Remove (Post q job) job = (true, q).
Proof.
  unfold Post. induction q as [|entry rest IH]; simpl; intros A.
  - replace (ProxyType_eqb job job) with true
      by (symmetry; apply ProxyType_eqb_eq; reflexivity).
    reflexivity.
  - destruct (ProxyType_eqb entry job) eqn:E.
    + apply ProxyType_eqb_eq in E. tauto.
    + rewrite IH by tauto. reflexivity.
Qed.

(** The loop ends undecided exactly when no worker is the caller's and no
    worker runs the job. *)
Lemma Revoke_loop_unknown_iff units job waitTime caller :
  forall waits,
    fst (Revoke_loop units job waitTime caller ERROR_UNKNOWN_KEY waits) =
      ERROR_UNKNOWN_KEY <->
    Forall (fun w => Id w <> caller /\ _currentRequest (Me w) <> job) units.
Proof.
  induction units as [|w rest IH]; intros waits; simpl.
  - split; auto.
  - destruct (N.eqb (Id w) caller) eqn:C.
    + apply N.eqb_eq in C.
      rewrite Revoke_loop_decided by discriminate. simpl.
      split; [discriminate|]. intros F. inversion F; subst. tauto.
    + apply N.eqb_neq in C.
      destruct (Completed_cases (Me w) job waitTime)
        as [[R E] | [R [E | E]]]; rewrite E; simpl.
      * apply ProxyType_eqb_neq in R. rewrite IH.
        split; [intros F; constructor; auto|].
        intros F. inversion F; subst. assumption.
      * apply ProxyType_eqb_eq in R.
        rewrite Revoke_loop_decided by discriminate. simpl.
        split; [discriminate|]. intros F. inversion F; subst. tauto.
      * apply ProxyType_eqb_eq in R.
        rewrite Revoke_loop_decided by discriminate. simpl.
        split; [discriminate|]. intros F. inversion F; subst. tauto.
Qed.

(** [Revoke] answers UNKNOWN_KEY exactly when the job is not in the queue,
    the caller is none of the pool's workers and no worker is running the
    job. *)
Theorem Revoke_unknown_iff pool (job : ProxyType) (waitTime : N)
    (caller : ThreadId) :
  fst (fst (Revoke pool job waitTime caller)) = ERROR_UNKNOWN_KEY <->
  ~ In job (_queue pool) /\
  Forall (fun w => Id w <> caller /\ _currentRequest (Me w) <> job)
    (_units pool).
Proof.
  unfold Revoke.
  destruct (Remove (_queue pool) job) as [removed q] eqn:R.
  assert (F := Remove_found (_queue pool) job). rewrite R in F. simpl in F.
  destruct removed; simpl.
  - split; [discriminate|]. intros [A _]. exfalso. apply A, F. reflexivity.
  - rewrite <- (Revoke_loop_unknown_iff (_units pool) job waitTime caller []).
    destruct (Revoke_loop (_units pool) job waitTime caller
                ERROR_UNKNOWN_KEY []) as [result waits]. simpl.
    split.
    + intros E. split; [|exact E]. intros A. apply F in A. discriminate A.
    + tauto.
Qed.

(** What the loop blocked on: nothing, or the one worker that runs the
    job. *)
Lemma Revoke_loop_blocks units job waitTime caller :
  let out := Revoke_loop units job waitTime caller ERROR_UNKNOWN_KEY [] in
  (snd out = [] /\ fst out <> ERROR_TIMEDOUT) \/
  (exists w, In w units /\ snd out = [Id w] /\ Id w <> caller /\
             _currentRequest (Me w) = job /\
             fst out = fst (Completed (Me w) job waitTime)).
Proof.
  induction units as [|w rest IH]; simpl.
  - left. split; [reflexivity | discriminate].
  - destruct (N.eqb (Id w) caller) eqn:C.
    + rewrite Revoke_loop_decided by discriminate.
      left. split; [reflexivity | discriminate].
    + apply N.eqb_neq in C.
      destruct (Completed_cases (Me w) job waitTime)
        as [[R E] | [R [E | E]]]; rewrite E; simpl.
      * destruct IH as [IH | (x & I & IH)]; [left; exact IH|].
        right. exists x. split; [right; exact I | exact IH].
      * apply ProxyType_eqb_eq in R.
        rewrite Revoke_loop_decided by discriminate.
        right. exists w. rewrite E. simpl. repeat split; auto.
      * apply ProxyType_eqb_eq in R.
        rewrite Revoke_loop_decided by discriminate.
        right. exists w. rewrite E. simpl. repeat split; auto.
Qed.

(** [Revoke] blocks on at most one worker, and only on a worker other than
    the caller's that is running the job; what it returns is then what that
    wait returned.  It answers TIMEDOUT only after such a wait, and it does
    not block at all when the job is in the queue. *)
Theorem Revoke_blocks_once pool (job : ProxyType) (waitTime : N)
    (caller : ThreadId) :
  (length (snd (fst (Revoke pool job waitTime caller))) <= 1)%nat /\
  (forall id,
     In id (snd (fst (Revoke pool job waitTime caller))) ->
     exists w, In w (_units pool) /\ Id w = id /\ id <> caller /\
               _currentRequest (Me w) = job /\
               fst (fst (Revoke pool job waitTime caller)) =
                 Event_Lock (_signal (Me w)) waitTime) /\
  (fst (fst (Revoke pool job waitTime caller)) = ERROR_TIMEDOUT ->
   snd (fst (Revoke pool job waitTime caller)) <> []) /\
  (In job (_queue pool) ->
   snd (fst (Revoke pool job waitTime caller)) = []).
Proof.
  unfold Revoke.
  destruct (Remove (_queue pool) job) as [removed q] eqn:R.
  assert (F := Remove_found (_queue pool) job). rewrite R in F. simpl in F.
  destruct removed; simpl.
  - repeat split; auto; try discriminate. intros id [].
  - assert (B := Revoke_loop_blocks (_units pool) job waitTime caller).
    simpl in B.
    destruct (Revoke_loop (_units pool) job waitTime caller
                ERROR_UNKNOWN_KEY []) as [result waits]. simpl in *.
    destruct B as [[-> NT] | (w & I & -> & NC & Cur & Res)].
    + repeat split; auto. intros id [].
    + repeat split; simpl; auto.
      * intros id [<- | []]. exists w. repeat split; auto.
        rewrite Res. unfold Completed.
        replace (ProxyType_eqb (_currentRequest (Me w)) job) with true
          by (symmetry; apply ProxyType_eqb_eq; exact Cur).
        reflexivity.
      * discriminate.
      * intros A. apply F in A. discriminate A.
Qed.

(** [Revoke] takes the first entry for the job out of the queue, keeps the
    other entries in their order and answers OK without blocking; when the
    job is not in the queue the pool is left as it was.  Workers and
    scheduler are never touched. *)
Theorem Revoke_takes_first pool (job : ProxyType) (waitTime : N)
    (caller : ThreadId) :
  (In job (_queue pool) ->
   exists before after,
     _queue pool = before ++ job :: after /\ ~ In job before /\
     Revoke pool job waitTime caller =
       (ERROR_NONE, [], with_queue pool (before ++ after))) /\
  (~ In job (_queue pool) -> snd (Revoke pool job waitTime caller) = pool) /\
  _units (snd (Revoke pool job waitTime caller)) = _units pool /\
  _scheduler (snd (Revoke pool job waitTime caller)) = _scheduler pool.
Proof.
  unfold Revoke. repeat split.
  - intros A. destruct (@Remove_present _ _ A) as (before & after & Q & NB & R).
    exists before, after. rewrite R. auto.
  - intros A. rewrite (@Remove_absent _ _ A).
    destruct (Revoke_loop (_units pool) job waitTime caller
                ERROR_UNKNOWN_KEY []).
    simpl. apply with_queue_same.
  - destruct (Remove (_queue pool) job) as [[|] q]; [reflexivity|].
    destruct (Revoke_loop (_units pool) job waitTime caller
                ERROR_UNKNOWN_KEY []); reflexivity.
  - destruct (Remove (_queue pool) job) as [[|] q]; [reflexivity|].
    destruct (Revoke_loop (_units pool) job waitTime caller
                ERROR_UNKNOWN_KEY []); reflexivity.
Qed.

(** [Closure], for any job: the workers are untouched, every entry of the
    queue stays where it was, at most one handle is added and only a valid
    one, a pool without scheduler stays without one, and nothing at all
    changes when the job's [Resubmit] gives no handle. *)
Theorem Closure_frame {J : Type} `{IJob Time J} (now : Time) pool (job : J) :
  _units (fst (Closure now pool job)) = _units pool /\
  (fst (Closure now pool job) = pool \/
   (exists h, IsValid h = true /\
      fst (Closure now pool job) = with_queue pool (_queue pool ++ [h])) \/
   (exists h time s, IsValid h = true /\ _scheduler pool = Some s /\
      fst (Closure now pool job) =
        with_scheduler pool (Some (s ++ [(time, h)])))) /\
  (_scheduler pool = None -> _scheduler (fst (Closure now pool job)) = None) /\
  (IsValid (fst (fst (IJob_Resubmit Time_new job))) = false ->
   fst (Closure now pool job) = pool).
Proof.
  unfold Closure.
  destruct (IJob_Resubmit Time_new job) as [[h time] job'] eqn:R. simpl.
  destruct (IsValid h) eqn:V; simpl.
  - unfold scheduler_is_null.
    destruct (_scheduler pool) as [s|] eqn:S; simpl.
    + rewrite orb_false_r.
      destruct (negb (Time_IsValid time) || Time_lt time now); simpl;
        repeat split; try discriminate.
      * right. left. exists h. auto.
      * right. right. exists h, time, s. auto.
    + rewrite orb_true_r. simpl. repeat split; auto; try discriminate.
      right. left. exists h. auto.
  - repeat split; auto.
Qed.

End ThreadPoolMore.

(** ** The closure on a slot, and revoking what it posted *)

Section SlotInPool.

Import JobType.

Context {Time : Type} `{TimeOps Time}.
Context {IMPLEMENTATION : Type}.

Implicit Types pool : ThreadPool.t Time.
Implicit Types j : JobType.t Time IMPLEMENTATION.

#[local] Existing Instance ThreadPool.Worker.

(** [Closure] on a slot, given that a default-constructed time is not
    valid.  An EXECUTING slot becomes IDLE and nothing is routed; a
    RESUBMIT slot becomes SUBMITTED and its handle is posted on the queue,
    scheduler or not; a SCHEDULE slot becomes SUBMITTED and its handle is
    posted or given to the scheduler with the stored time; an IDLE,
    SUBMITTED or REVOKING slot and the pool are left as they were. *)
Theorem Closure_of_slot (now : Time) pool j :
  Time_IsValid Time_new = false ->
  match _state j with
  | EXECUTING =>
      ThreadPool.Closure now pool j = (pool, with_state j IDLE)
  | RESUBMIT =>
      ThreadPool.Closure now pool j =
        (ThreadPool.with_queue pool
           (ThreadPool.Post (ThreadPool._queue pool) (handle j)),
         with_state j SUBMITTED)
  | SCHEDULE =>
      snd (ThreadPool.Closure now pool j) = with_state j SUBMITTED /\
      (ThreadPool.posted pool (fst (ThreadPool.Closure now pool j))
         (handle j) \/
       ThreadPool.handed_over pool (fst (ThreadPool.Closure now pool j))
         (_time j) (handle j))
  | IDLE | SUBMITTED | REVOKING =>
      ThreadPool.Closure now pool j = (pool, j)
  end.
Proof.
  intros D. destruct j as [i s a tm]. unfold ThreadPool.Closure.
  destruct s; simpl; try reflexivity.
  - rewrite D. reflexivity.
  - unfold ThreadPool.scheduler_is_null.
    destruct pool as [q units [sch|]]; simpl.
    + rewrite orb_false_r.
      destruct (negb (Time_IsValid tm) || Time_lt tm now); simpl;
        (split; [reflexivity|]).
      * left. repeat split.
      * right. repeat split. exists sch. split; reflexivity.
    + rewrite orb_true_r. simpl. split; [reflexivity|].
      left. repeat split.
Qed.

(** Revoking what the closure posted.  When the closure has posted the
    handle of a RESUBMIT slot that was not in the queue, the revoker's
    three steps ([JobType::Revoke], [ThreadPool::Revoke] with the handle it
    gives, [JobType::Revoked]) answer OK without blocking, put the pool
    back as it was before the closure and leave the slot IDLE. *)
Theorem revoke_undoes_resubmission (now : Time) pool j (waitTime : N)
    (caller : ThreadPool.ThreadId) :
  Time_IsValid Time_new = false ->
  _state j = RESUBMIT ->
  ~ In (handle j) (ThreadPool._queue pool) ->
  fst (Revoke (snd (ThreadPool.Closure now pool j))) = handle j /\
  ThreadPool.Revoke (fst (ThreadPool.Closure now pool j))
    (fst (Revoke (snd (ThreadPool.Closure now pool j)))) waitTime caller =
    (ThreadPool.ERROR_NONE, [], pool) /\
  Revoked (snd (Revoke (snd (ThreadPool.Closure now pool j)))) =
    with_state j IDLE.
Proof.
  intros D S A.
  assert (C : ThreadPool.Closure now pool j =
              (ThreadPool.with_queue pool
                 (ThreadPool.Post (ThreadPool._queue pool) (handle j)),
               with_state j SUBMITTED)).
  { destruct j as [i s a tm]. simpl in S. subst s.
    unfold ThreadPool.Closure. simpl. rewrite D. reflexivity. }
  rewrite C. cbn [fst snd].
  assert (K : Revoke (with_state j SUBMITTED) =
              (handle j, with_state j REVOKING))
    by (destruct j; reflexivity).
  rewrite K. cbn [fst snd].
  split; [reflexivity|]. split.
  - unfold ThreadPool.Revoke.
    cbn [ThreadPool._queue ThreadPool.with_queue].
    rewrite (@Remove_Post (ThreadPool._queue pool) (handle j) A).
    destruct pool; reflexivity.
  - destruct j; reflexivity.
Qed.

End SlotInPool.

(** ** The constructor and the introspection functions *)

Section IntrospectionFacts.

Import ThreadPool Introspection.

Context {Time : Type}.

Implicit Types pool : ThreadPool.t Time.
Implicit Types units : list Executor.

Lemma uint8_small (n : N) : (n < 256)%N -> uint8 n = n.
Proof. intros B. unfold uint8. apply N.mod_small. exact B. Qed.

Lemma Id_loop_nth units (index : N) :
  (index < 256)%N ->
  forall count,
    (count <= index)%N ->
    Id_loop units index count =
    nth (N.to_nat (index - count)) (map ThreadPool.Id units) 0%N.
Proof.
  intros B. induction units as [|ptr rest IH]; intros count L; simpl.
  - destruct (N.to_nat (index - count)); reflexivity.
  - destruct (N.eqb index count) eqn:E; simpl.
    + apply N.eqb_eq in E. subst count. rewrite N.sub_diag. reflexivity.
    + apply N.eqb_neq in E. rewrite uint8_small by lia.
      rewrite IH by lia.
      replace (N.to_nat (index - count))
        with (S (N.to_nat (index - (count + 1)))) by lia.
      reflexivity.
Qed.

(** [Id(index)] is the thread id of the worker at position [index], and
    zero when the pool has no worker at that position. *)
Theorem Id_nth pool (index : N) :
  (index < 256)%N ->
  Introspection.Id pool index =
  nth (N.to_nat index) (map ThreadPool.Id (_units pool)) 0%N.
Proof.
  intros B. unfold Introspection.Id.
  rewrite (@Id_loop_nth (_units pool) index B 0%N) by lia.
  rewrite N.sub_0_r. reflexivity.
Qed.

Lemma Active_loop_counts units :
  forall count,
    (N.to_nat count + length units < 256)%nat ->
    Active_loop units count =
    (count + N.of_nat (length (filter Executor_IsActive units)))%N.
Proof.
  induction units as [|ptr rest IH]; intros count B; simpl in *.
  - lia.
  - destruct (Executor_IsActive ptr); simpl.
    + rewrite uint8_small by lia. rewrite IH by lia. lia.
    + rewrite IH by lia. reflexivity.
Qed.

(** In a pool of at most 255 workers, [Active] is the number of workers
    whose current request is valid, and it never exceeds [Count]. *)
Theorem Active_counts pool :
  (length (_units pool) < 256)%nat ->
  Active pool =
    N.of_nat (length (filter Executor_IsActive (_units pool))) /\
  (Active pool <= Count pool)%N.
Proof.
  intros B. unfold Active, Count.
  rewrite Active_loop_counts by (simpl; lia).
  rewrite uint8_small by lia.
  split; [lia|].
  assert (L := filter_length_le Executor_IsActive (_units pool)). lia.
Qed.

Lemma Runs_loop_fills units (length : N) :
  (length < 256)%N ->
  forall count counters i,
    (count <= length)%N ->
    Runs_loop units length count counters i =
    if N.leb count i && N.ltb i length
    then nth (N.to_nat (i - count)) (map Executor_Runs units) (counters i)
    else counters i.
Proof.
  intros B. induction units as [|ptr rest IH]; intros count counters i L;
    simpl.
  - destruct (N.leb count i && N.ltb i length);
      [destruct (N.to_nat (i - count))|]; reflexivity.
  - destruct (N.ltb count length) eqn:C.
    + apply N.ltb_lt in C. rewrite uint8_small by lia. rewrite IH by lia.
      destruct (N.eqb i count) eqn:E.
      * apply N.eqb_eq in E. subst i.
        replace (N.leb (count + 1) count) with false
          by (symmetry; apply N.leb_gt; lia).
        replace (N.leb count count) with true
          by (symmetry; apply N.leb_le; lia).
        replace (N.ltb count length) with true
          by (symmetry; apply N.ltb_lt; lia).
        simpl. rewrite N.sub_diag. reflexivity.
      * apply N.eqb_neq in E.
        destruct (N.leb count i) eqn:Li.
        -- apply N.leb_le in Li.
           replace (N.leb (count + 1) i) with true
             by (symmetry; apply N.leb_le; lia).
           simpl. destruct (N.ltb i length); [|reflexivity].
           replace (N.to_nat (i - count))
             with (S (N.to_nat (i - (count + 1)))) by lia.
           reflexivity.
        -- apply N.leb_gt in Li.
           replace (N.leb (count + 1) i) with false
             by (symmetry; apply N.leb_gt; lia).
           reflexivity.
    + apply N.ltb_ge in C.
      destruct (N.leb count i) eqn:Li; [|reflexivity].
      apply N.leb_le in Li.
      replace (N.ltb i length) with false
        by (symmetry; apply N.ltb_ge; lia).
      reflexivity.
Qed.

(** [Runs(length, counters)] writes the run counts of the workers, in
    order, into the first entries of the buffer: as many as the smaller of
    [length] and the number of workers.  Every other entry, and everything
    from [length] on, is left as it was. *)
Theorem Runs_fills pool (length : N) (counters : N -> N) (i : N) :
  (length < 256)%N ->
  Runs pool length counters i =
  if N.ltb i length
  then nth (N.to_nat i) (map Executor_Runs (_units pool)) (counters i)
  else counters i.
Proof.
  intros B. unfold Runs.
  rewrite (@Runs_loop_fills (_units pool) length B 0%N counters i) by lia.
  rewrite N.sub_0_r.
  replace (N.leb 0 i) with true by (symmetry; apply N.leb_le; lia).
  reflexivity.
Qed.

Lemma emplace_units_length (threads : nat -> ThreadId * Event)
    (remaining : nat) :
  forall index, length (emplace_units threads remaining index) = remaining.
Proof.
  induction remaining as [|r IH]; intros index; simpl;
    [|rewrite IH]; reflexivity.
Qed.

Lemma emplace_units_fresh (threads : nat -> ThreadId * Event)
    (remaining : nat) :
  forall index,
    Forall (fun w => Executor_IsActive w = false /\ Executor_Runs w = 0%N)
      (emplace_units threads remaining index).
Proof.
  induction remaining as [|r IH]; intros index; simpl; constructor; auto.
Qed.

Lemma emplace_units_nth (threads : nat -> ThreadId * Event)
    (remaining : nat) :
  forall index k,
    (k < remaining)%nat ->
    nth k (map ThreadPool.Id (emplace_units threads remaining index)) 0%N =
    fst (threads (index + k)%nat).
Proof.
  induction remaining as [|r IH]; intros index k B; [lia|].
  destruct k as [|k]; simpl.
  - rewrite Nat.add_0_r. reflexivity.
  - rewrite IH by lia. f_equal. f_equal. lia.
Qed.

Lemma filter_none {A : Type} (f : A -> bool) (l : list A) :
  Forall (fun x => f x = false) l -> filter f l = [].
Proof.
  induction 1 as [|x l Hx _ IH]; simpl; [reflexivity|].
  rewrite Hx. exact IH.
Qed.

(** A pool as the constructor leaves it, for a worker count that fits a
    [uint8_t]: [Count] is that count, nothing is pending, no worker is
    active, [Id] gives the thread of each worker in order, and every run
    counter is zero. *)
Theorem make_fresh (count : N) (threads : nat -> ThreadId * Event)
    (scheduler : option (@IScheduler Time)) :
  (count < 256)%N ->
  Count (make count threads scheduler) = count /\
  Pending (make count threads scheduler) = 0%N /\
  Active (make count threads scheduler) = 0%N /\
  (forall index, (index < count)%N ->
     Introspection.Id (make count threads scheduler) index =
       fst (threads (N.to_nat index))) /\
  (forall counters i, (i < count)%N ->
     Runs (make count threads scheduler) count counters i = 0%N).
Proof.
  intros B.
  assert (L := emplace_units_length threads (N.to_nat count) 0).
  assert (F := emplace_units_fresh threads (N.to_nat count) 0).
  split; [|split; [|split; [|split]]].
  - unfold Count, make. simpl. rewrite L.
    replace (N.of_nat (N.to_nat count)) with count by lia.
    apply uint8_small. exact B.
  - reflexivity.
  - unfold Active, make. simpl.
    rewrite Active_loop_counts by (rewrite L; simpl; lia).
    rewrite filter_none; [reflexivity|].
    eapply Forall_impl; [|exact F]. simpl. tauto.
  - intros index I. unfold Introspection.Id, make. simpl.
    rewrite (@Id_loop_nth (emplace_units threads (N.to_nat count) 0) index)
      by lia.
    rewrite N.sub_0_r. apply emplace_units_nth. lia.
  - intros counters i I. unfold Runs, make. simpl.
    rewrite (@Runs_loop_fills (emplace_units threads (N.to_nat count) 0)
               count B 0%N counters i) by lia.
    rewrite N.sub_0_r.
    replace (N.leb 0 i) with true by (symmetry; apply N.leb_le; lia).
    replace (N.ltb i count) with true by (symmetry; apply N.ltb_lt; exact I).
    simpl.
    rewrite (nth_indep _ _ 0%N)
      by (rewrite length_map, L; lia).
    rewrite Forall_forall in F.
    assert (In (nth (N.to_nat i)
                  (emplace_units threads (N.to_nat count) 0)
                  (Executor_new (threads O)))
               (emplace_units threads (N.to_nat count) 0))
      by (apply nth_In; lia).
    change 0%N with (Executor_Runs (Executor_new (threads O))) at 1.
    rewrite map_nth. apply F. assumption.
Qed.

End IntrospectionFacts.

(** ** More examples on the concrete clock *)

Section WorkedMore.

Import JobType Examples.

#[local] Existing Instance ThreadPool.Worker.

Lemma REVOKING_holds_witness :
  _state (slot_in REVOKING 3) = REVOKING /\
  Submit (slot_in REVOKING 3) = (None, slot_in REVOKING 3) /\
  Reschedule 5%Z (slot_in REVOKING 3) = (None, slot_in REVOKING 5) /\
  Dispatch (slot_in REVOKING 3) = (false, slot_in REVOKING 3).
Proof.
  split; [reflexivity|].
  destruct (@REVOKING_holds Z nat Counter 5%Z (slot_in REVOKING 3) eq_refl)
    as (_ & S & R & _ & D & _).
  split; [exact S|]. split; [exact R | exact D].
Defined.

Lemma cycle_from_idle_witness :
  _state (slot_in IDLE 3) = IDLE /\
  Resubmit 0%Z (snd (Dispatch (snd (Submit (slot_in IDLE 3))))) =
    (None, 0%Z,
     {| _implementation := 1; _state := IDLE; _job := 1; _time := 3%Z |}).
Proof.
  split; [reflexivity|].
  destruct (@cycle_from_idle Z nat Counter 0%Z (slot_in IDLE 3) eq_refl)
    as (_ & _ & R).
  exact R.
Defined.

(** Three submissions while the body runs. *)
Lemma Submits_coalesce_witness :
  _state (slot_in EXECUTING 3) = EXECUTING /\
  Resubmit 0%Z
    (snd (Submit (snd (Submit (snd (Submit (slot_in EXECUTING 3))))))) =
    (Some 1, 0%Z, slot_in SUBMITTED 3).
Proof.
  split; [reflexivity|].
  destruct (@Submits_coalesce Z nat Counter 0%Z (slot_in EXECUTING 3) 2
              eq_refl) as (R & _).
  exact R.
Defined.

Lemma last_request_wins_witness :
  _state (slot_in EXECUTING 3) = EXECUTING /\
  Resubmit 0%Z (snd (Submit (snd (Reschedule 9%Z (slot_in EXECUTING 3))))) =
    (Some 1, 0%Z, slot_in SUBMITTED 9) /\
  Resubmit 0%Z (snd (Reschedule 9%Z (snd (Submit (slot_in EXECUTING 3))))) =
    (Some 1, 9%Z, slot_in SUBMITTED 9).
Proof.
  split; [reflexivity|].
  apply (@last_request_wins Z nat 0%Z 9%Z (slot_in EXECUTING 3)).
  reflexivity.
Defined.

Lemma Closure_of_slot_witness :
  Time_IsValid (Time_new (Time := Z)) = false /\
  ThreadPool.Closure 50%Z three_workers (slot_in RESUBMIT 100) =
    (ThreadPool.with_queue three_workers [Some 4; Some 1],
     slot_in SUBMITTED 100).
Proof.
  split; [reflexivity|].
  apply (@Closure_of_slot Z Ticks nat 50%Z three_workers
           (slot_in RESUBMIT 100) eq_refl).
Defined.

Lemma revoke_undoes_resubmission_witness :
  Time_IsValid (Time_new (Time := Z)) = false /\
  _state (slot_in RESUBMIT 100) = RESUBMIT /\
  ~ In (handle (slot_in RESUBMIT 100)) (ThreadPool._queue three_workers) /\
  ThreadPool.Revoke
    (fst (ThreadPool.Closure 50%Z three_workers (slot_in RESUBMIT 100)))
    (fst (Revoke
            (snd (ThreadPool.Closure 50%Z three_workers
                    (slot_in RESUBMIT 100)))))
    0%N 99%N =
    (ThreadPool.ERROR_NONE, [], three_workers).
Proof.
  assert (A : ~ In (handle (slot_in RESUBMIT 100))
                (ThreadPool._queue three_workers)).
  { simpl. intros [E | []]. discriminate E. }
  split; [reflexivity|]. split; [reflexivity|]. split; [exact A|].
  destruct (@revoke_undoes_resubmission Z Ticks nat 50%Z three_workers
              (slot_in RESUBMIT 100) 0%N 99%N eq_refl eq_refl A)
    as (_ & R & _).
  exact R.
Defined.

Lemma Id_nth_witness :
  (1 < 256)%N /\ Introspection.Id three_workers 1%N = 20%N.
Proof.
  split; [reflexivity|].
  apply (@Id_nth Z three_workers 1%N). reflexivity.
Defined.

(** Past the last worker. *)
Example Id_out_of_range : Introspection.Id three_workers 3%N = 0%N.
Proof. reflexivity. Qed.

Lemma Active_counts_witness :
  (length (ThreadPool._units three_workers) < 256)%nat /\
  Introspection.Active three_workers = 2%N /\
  (Introspection.Active three_workers <= Introspection.Count three_workers)%N.
Proof.
  assert (B : (length (ThreadPool._units three_workers) < 256)%nat)
    by (simpl; lia).
  split; [exact B|].
  apply (@Active_counts Z three_workers B).
Defined.

(** A buffer of sevens, two counters asked for. *)
Lemma Runs_fills_witness :
  (2 < 256)%N /\
  Introspection.Runs three_workers 2%N (fun _ => 7%N) 1%N = 0%N /\
  Introspection.Runs three_workers 2%N (fun _ => 7%N) 2%N = 7%N.
Proof.
  split; [reflexivity|]. split.
  - apply (@Runs_fills Z three_workers 2%N (fun _ => 7%N) 1%N). reflexivity.
  - apply (@Runs_fills Z three_workers 2%N (fun _ => 7%N) 2%N). reflexivity.
Defined.

Lemma make_fresh_witness :
  (3 < 256)%N /\
  Introspection.Count
    (Introspection.make (Time := Z) 3%N
       (fun i => (N.of_nat i + 10, never)%N) None) = 3%N /\
  Introspection.Active
    (Introspection.make (Time := Z) 3%N
       (fun i => (N.of_nat i + 10, never)%N) None) = 0%N.
Proof.
  split; [reflexivity|].
  destruct (@make_fresh Z 3%N (fun i => (N.of_nat i + 10, never)%N) None
              eq_refl) as (C & _ & A & _).
  split; [exact C | exact A].
Defined.

(** Two runs of the body need two handles: the body asked twice in a row
    runs once. *)
Example one_handle_one_run :
  Tally.ran
    (Tally.acts
       [Lifecycle.OpSubmit; Lifecycle.OpDispatch; Lifecycle.OpDispatch;
        Lifecycle.OpResubmit; Lifecycle.OpDispatch]
       (Tally.fresh 0 1)) = 1.
Proof. reflexivity. Qed.

End WorkedMore.

(** ** The handles of a slot in a running pool *)

Section HandlesFacts.

Import Handles.

Context {Time : Type} `{TimeOps Time}.
Context {IMPLEMENTATION : Type} `{JobType.Implementation IMPLEMENTATION}.

Implicit Types w : Handles.t Time IMPLEMENTATION.

#[local] Existing Instance ThreadPool.Worker.

Lemma count_app {A : Type} (p : A -> bool) (l : list A) (x : A) :
  count p (l ++ [x]) = count p l + (if p x then 1 else 0).
Proof. induction l as [|y l IH]; simpl; [|rewrite IH]; lia. Qed.

Lemma count_replace {A : Type} (p : A -> bool) (l : list A) :
  forall k x y,
    nth_error l k = Some y ->
    count p (replace k x l) + (if p y then 1 else 0) =
    count p l + (if p x then 1 else 0).
Proof.
  induction l as [|z l IH]; intros [|k] x y E; simpl in *;
    try discriminate E.
  - injection E as ->. lia.
  - specialize (IH k x y E). lia.
Qed.

Lemma count_erase {A : Type} (p : A -> bool) (l : list A) :
  forall n y,
    nth_error l n = Some y ->
    count p (erase n l) + (if p y then 1 else 0) = count p l.
Proof.
  induction l as [|z l IH]; intros [|n] y E; simpl in *;
    try discriminate E.
  - injection E as ->. lia.
  - specialize (IH n y E). lia.
Qed.

Lemma count_Remove (p : ProxyType -> bool) (q : ThreadPool.MessageQueue)
    (job : ProxyType) :
  count p (snd (ThreadPool.Remove q job)) <= count p q.
Proof.
  induction q as [|entry rest IH]; simpl; [lia|].
  destruct (ProxyType_eqb entry job); simpl; [lia|].
  destruct (ThreadPool.Remove rest job) as [found rest']. simpl in *. lia.
Qed.

Lemma Forall_replace {A : Type} (P : A -> Prop) (l : list A) :
  forall k x, Forall P l -> P x -> Forall P (replace k x l).
Proof.
  induction l as [|z l IH]; intros [|k] x F Px; simpl; auto;
    inversion F; subst; constructor; auto.
Qed.

(** What [ThreadPool::Revoke] leaves of the queue and the scheduler. *)
Lemma Revoke_leaves (pool : ThreadPool.t Time) (job : ProxyType)
    (waitTime : N) (caller : ThreadPool.ThreadId) :
  ThreadPool._queue (snd (ThreadPool.Revoke pool job waitTime caller)) =
    snd (ThreadPool.Remove (ThreadPool._queue pool) job) /\
  ThreadPool._scheduler (snd (ThreadPool.Revoke pool job waitTime caller)) =
    ThreadPool._scheduler pool.
Proof.
  unfold ThreadPool.Revoke.
  destruct (ThreadPool.Remove (ThreadPool._queue pool) job) as [[|] q];
    [split; reflexivity|].
  destruct (ThreadPool.Revoke_loop (ThreadPool._units pool) job waitTime
              caller ThreadPool.ERROR_UNKNOWN_KEY []).
  split; reflexivity.
Qed.

(** What the closure adds for a slot: at most one handle, and none when it
    leaves the slot IDLE. *)
Lemma Closure_adds (now : Time) (pool : ThreadPool.t Time)
    (j : JobType.t Time IMPLEMENTATION) :
  let out := ThreadPool.Closure now pool j in
  let h := JobType.handle j in
  let held (p : ThreadPool.t Time) :=
    count (is_handle h) (ThreadPool._queue p) +
    match ThreadPool._scheduler p with
    | Some s => count (fun entry => is_handle h (snd entry)) s
    | None => 0
    end in
  JobType._job (snd out) = JobType._job j /\
  held (fst out) <= held pool + 1 /\
  (JobType._state (snd out) = JobType.IDLE -> held (fst out) = held pool).
Proof.
  destruct j as [i s a tm]. destruct pool as [q units sch].
  unfold ThreadPool.Closure, ThreadPool.scheduler_is_null.
  destruct s; simpl;
    try match goal with
        | |- context [if ?c then _ else _] => destruct c
        end;
    unfold ThreadPool.Post, ThreadPool.Schedule; destruct sch; simpl;
    rewrite ?count_app; simpl; rewrite ?Nat.eqb_refl;
    repeat split; try lia; try discriminate.
Qed.

Lemma is_handle_same (a : nat) : is_handle (Some a) (Some a) = true.
Proof. unfold is_handle. simpl. apply Nat.eqb_refl. Qed.

Ltac lay_out :=
  unfold steady, live, queued, scheduled, at_work, JobType.handle,
    current in *;
  simpl in *.

Lemma produce_steady (a : nat) (c : call Time) (r : route Time) w w' :
  steady a w ->
  allowed (Produce c r) w = true ->
  step (Produce c r) w = Some w' ->
  steady a w'.
Proof.
  destruct w as [q s ws j]. destruct j as [i st a' tm]. lay_out.
  intros (-> & L & I) A S.
  destruct c; destruct st; simpl in *; try discriminate A;
    injection S as <-; destruct r; simpl;
    unfold ThreadPool.Post, ThreadPool.Schedule, JobType.handle;
    try destruct s; simpl; rewrite ?count_app; simpl;
    rewrite ?is_handle_same, ?Nat.eqb_refl;
    repeat split; intros; try discriminate; try lia;
    try (specialize (I eq_refl); lia).
Qed.

Lemma fire_steady (a : nat) (n : nat) w w' :
  steady a w -> fire n w = Some w' -> steady a w'.
Proof.
  destruct w as [q s ws j]. unfold fire. lay_out.
  intros (J & L & I) S.
  destruct s as [s|]; [|discriminate S].
  destruct (nth_error s n) as [[tm h]|] eqn:E; [|discriminate S].
  injection S as <-. simpl. unfold ThreadPool.Post. rewrite count_app.
  assert (C := count_erase
                 (fun entry : Time * ProxyType =>
                    is_handle (Some (JobType._job j)) (snd entry)) s n E).
  simpl in C. repeat split; auto; intros; try lia.
  specialize (I ltac:(assumption)). lia.
Qed.

Lemma extract_steady (a : nat) (k : nat) w w' :
  steady a w -> extract k w = Some w' -> steady a w'.
Proof.
  destruct w as [q s ws j]. unfold extract. lay_out.
  intros (J & L & I) S.
  destruct (nth_error ws k) as [[e p]|] eqn:E; [|discriminate S].
  destruct p; try discriminate S.
  destruct q as [|request rest]; [discriminate S|].
  injection S as <-. simpl in *.
  assert (C := count_replace
                 (fun x => is_handle (Some (JobType._job j)) (current x)
                           && working (snd x))
                 ws k (take e request, Extracted) E).
  unfold current in C. simpl in C.
  rewrite andb_false_r, andb_true_r in C.
  repeat split; auto; intros; try lia.
  specialize (I ltac:(assumption)). lia.
Qed.

Lemma dispatch_steady (a : nat) (k : nat) w w' :
  steady a w -> run_dispatch k w = Some w' -> steady a w'.
Proof.
  destruct w as [q s ws j]. unfold run_dispatch. lay_out.
  intros (J & L & I) S.
  destruct (nth_error ws k) as [[e p]|] eqn:E; [|discriminate S].
  destruct p; try discriminate S.
  injection S as <-. simpl in *.
  assert (Same : forall j' : JobType.t Time IMPLEMENTATION,
             j' = j \/ j' = snd (JobType.Dispatch j) ->
             JobType._job j' = JobType._job j /\
             (JobType._state j' = JobType.IDLE ->
              JobType._state j = JobType.IDLE)).
  { intros j' [-> | ->]; [auto|].
    destruct j as [i st a' tm]; destruct st; simpl; split; auto;
      discriminate. }
  match goal with
  | |- context [if ?c then _ else _] =>
      destruct (Same (if c then snd (JobType.Dispatch j) else j))
        as (Sj & Si); [destruct c; auto|]
  end.
  rewrite Sj.
  assert (C := count_replace
                 (fun x => is_handle (Some (JobType._job j)) (current x)
                           && working (snd x))
                 ws k (e, Dispatched) E).
  unfold current in C. simpl in C.
  repeat split; auto; intros; try lia.
  specialize (I (Si ltac:(assumption))). lia.
Qed.

Lemma closure_steady (a : nat) (k : nat) (now : Time) w w' :
  steady a w -> run_closure k now w = Some w' -> steady a w'.
Proof.
  destruct w as [q s ws j]. unfold run_closure. lay_out.
  intros (J & L & I) S.
  destruct (nth_error ws k) as [[e p]|] eqn:E; [|discriminate S].
  destruct p; try discriminate S.
  assert (C := count_replace
                 (fun x => is_handle (Some (JobType._job j)) (current x)
                           && working (snd x))
                 ws k (e, Closed) E).
  unfold current in C. simpl in C.
  rewrite andb_false_r, andb_true_r in C.
  destruct (ProxyType_eqb (ThreadPool._currentRequest (ThreadPool._minion e))
              (Some (JobType._job j))) eqn:Mine.
  - assert (Mine' : is_handle (Some (JobType._job j))
                      (ThreadPool._currentRequest (ThreadPool._minion e))
                    = true) by exact Mine.
    rewrite Mine' in C.
    assert (A := Closure_adds now
                   {| ThreadPool._queue := q;
                      ThreadPool._units := map fst ws;
                      ThreadPool._scheduler := s |} j).
    unfold pool_of in S. simpl in S.
    destruct (ThreadPool.Closure now
                {| ThreadPool._queue := q;
                   ThreadPool._units := map fst ws;
                   ThreadPool._scheduler := s |} j) as [pool j'].
    unfold JobType.handle in A. simpl in A.
    destruct A as (Aj & Ale & Aidle).
    injection S as <-. simpl. rewrite Aj.
    repeat split; auto; intros; try lia.
    specialize (Aidle ltac:(assumption)). lia.
  - assert (Mine' : is_handle (Some (JobType._job j))
                      (ThreadPool._currentRequest (ThreadPool._minion e))
                    = false) by exact Mine.
    rewrite Mine' in C.
    injection S as <-. simpl.
    repeat split; auto; intros; try lia.
    specialize (I ltac:(assumption)). lia.
Qed.

Lemma release_steady (a : nat) (k : nat) w w' :
  steady a w -> run_release k w = Some w' -> steady a w'.
Proof.
  destruct w as [q s ws j]. unfold run_release. lay_out.
  intros (J & L & I) S.
  destruct (nth_error ws k) as [[e p]|] eqn:E; [|discriminate S].
  destruct p; try discriminate S.
  injection S as <-. simpl in *.
  assert (C := count_replace
                 (fun x => is_handle (Some (JobType._job j)) (current x)
                           && working (snd x))
                 ws k (release e, Waiting) E).
  unfold current in C. simpl in C. rewrite !andb_false_r in C.
  repeat split; auto; intros; try lia.
  specialize (I ltac:(assumption)). lia.
Qed.

Lemma revoke_steady (a : nat) w w' :
  steady a w -> step CallRevoke w = Some w' -> steady a w'.
Proof.
  destruct w as [q s ws j]. destruct j as [i st a' tm]. lay_out.
  intros (-> & L & I) S. injection S as <-.
  destruct st; simpl; repeat split; auto; intros; try discriminate.
Qed.

Lemma pool_revoke_steady (a : nat) (job : ProxyType) (waitTime : N)
    (caller : ThreadPool.ThreadId) w w' :
  steady a w ->
  step (PoolRevoke job waitTime caller) w = Some w' ->
  steady a w'.
Proof.
  destruct w as [q s ws j]. lay_out.
  intros (J & L & I) S. injection S as <-. simpl.
  destruct (Revoke_leaves
              {| ThreadPool._queue := q; ThreadPool._units := map fst ws;
                 ThreadPool._scheduler := s |} job waitTime caller)
    as (Q & R).
  unfold pool_of. simpl in *. rewrite Q, R.
  assert (C := count_Remove (is_handle (Some (JobType._job j))) q job).
  repeat split; auto; intros; try lia.
  specialize (I ltac:(assumption)). lia.
Qed.

Lemma revoked_steady (a : nat) w w' :
  steady a w ->
  allowed CallRevoked w = true ->
  step CallRevoked w = Some w' ->
  steady a w'.
Proof.
  destruct w as [q s ws j]. destruct j as [i st a' tm]. lay_out.
  intros (-> & L & I) A S. injection S as <-.
  apply Nat.eqb_eq in A.
  destruct st; simpl; repeat split; auto; intros; lia.
Qed.

(** One step of a disciplined run keeps the pool steady. *)
Lemma step_steady (a : nat) (e : event Time) w w' :
  steady a w -> allowed e w = true -> step e w = Some w' -> steady a w'.
Proof.
  intros St A S. destruct e.
  - eapply produce_steady; eassumption.
  - eapply fire_steady; eassumption.
  - eapply extract_steady; eassumption.
  - eapply dispatch_steady; eassumption.
  - eapply closure_steady; eassumption.
  - eapply release_steady; eassumption.
  - eapply revoke_steady; eassumption.
  - eapply pool_revoke_steady; eassumption.
  - eapply revoked_steady; eassumption.
Qed.

Lemma run_steady (a : nat) (events : list (event Time)) :
  forall w w',
    steady a w ->
    disciplined events w = true ->
    run events w = Some w' ->
    steady a w'.
Proof.
  induction events as [|e rest IH]; simpl; intros w w' St D R.
  - injection R as <-. exact St.
  - apply andb_true_iff in D. destruct D as [A D].
    destruct (step e w) as [w1|] eqn:S; [|discriminate R].
    apply (IH w1 w'); auto. eapply step_steady; eassumption.
Qed.

Lemma step_rested (e : event Time) w w' :
  rested w -> step e w = Some w' -> rested w'.
Proof.
  unfold rested. destruct w as [q s ws j]. simpl. intros R S.
  destruct e; simpl in S;
    unfold fire, extract, run_dispatch, run_closure, run_release in S;
    simpl in S.
  - destruct (perform c j) as [h j']. injection S as <-.
    destruct (IsValid h); [destruct r|]; exact R.
  - destruct s as [s|]; [|discriminate S].
    destruct (nth_error s n) as [[tm h]|]; [|discriminate S].
    injection S as <-. exact R.
  - destruct (nth_error ws k) as [[e p]|]; [|discriminate S].
    destruct p; try discriminate S.
    destruct q as [|request rest]; [discriminate S|].
    injection S as <-. simpl. apply Forall_replace; [exact R|].
    simpl. discriminate.
  - destruct (nth_error ws k) as [[e p]|]; [|discriminate S].
    destruct p; try discriminate S.
    injection S as <-. simpl. apply Forall_replace; [exact R|].
    simpl. discriminate.
  - destruct (nth_error ws k) as [[e p]|]; [|discriminate S].
    destruct p; try discriminate S.
    destruct (ProxyType_eqb _ _).
    + destruct (ThreadPool.Closure now _ j) as [pool j'].
      injection S as <-. simpl. apply Forall_replace; [exact R|].
      simpl. discriminate.
    + injection S as <-. simpl. apply Forall_replace; [exact R|].
      simpl. discriminate.
  - destruct (nth_error ws k) as [[e p]|]; [|discriminate S].
    destruct p; try discriminate S.
    injection S as <-. simpl. apply Forall_replace; [exact R|].
    reflexivity.
  - injection S as <-. exact R.
  - injection S as <-. exact R.
  - injection S as <-. exact R.
Qed.

Lemma run_rested (events : list (event Time)) :
  forall w w', rested w -> run events w = Some w' -> rested w'.
Proof.
  induction events as [|e rest IH]; simpl; intros w w' R S.
  - injection S as <-. exact R.
  - destruct (step e w) as [w1|] eqn:E; [|discriminate S].
    apply (IH w1 w'); auto. eapply step_rested; eassumption.
Qed.

(** With the waiting workers holding nothing, a worker that holds the
    handle is before its closure or past it. *)
Lemma holding_split (a : nat) w :
  rested w ->
  holding (Some a) w = at_work (Some a) w + finishing (Some a) w.
Proof.
  unfold rested, holding, at_work, finishing.
  induction (workers w) as [|[e p] ws IH]; intros R; [reflexivity|].
  inversion R as [|x l Rx Rl]; subst. simpl. rewrite (IH Rl).
  destruct p; simpl in *; rewrite ?andb_false_r, ?andb_true_r; try lia.
  unfold current in *. simpl in *. rewrite (Rx eq_refl). simpl. lia.
Qed.

Lemma start_steady (impl : IMPLEMENTATION) (addr : nat) (size : N)
    (threads : nat -> ThreadPool.ThreadId * ThreadPool.Event)
    (sched : bool) :
  steady addr (start impl addr size threads sched) /\
  rested (start impl addr size threads sched).
Proof.
  unfold steady, rested, live, queued, scheduled, at_work, start. simpl.
  assert (Z : forall l : list ThreadPool.Executor,
             count
               (fun x => is_handle (Some addr) (current x) && working (snd x))
               (map (fun e => (e, Waiting)) l) = 0).
  { induction l as [|e l IH]; simpl; [reflexivity|].
    rewrite andb_false_r. exact IH. }
  unfold JobType.handle. simpl. rewrite Z.
  split; [destruct sched; simpl; repeat split; lia|].
  generalize 0 at 1.
  induction (N.to_nat size) as [|n IH]; intros index; simpl;
    constructor; auto.
Qed.


End HandlesFacts.

(** ** Examples: the slot in a pool of two workers *)

Section WorkedHandles.

Import JobType Handles HandleExamples.

(** [Submit] gives a handle, which is queued; [Reschedule], finding the
    slot SUBMITTED, gives another, which goes to the scheduler. *)
Example submit_then_reschedule_two :
  option_map
    (fun w => (queue w, scheduler w, _state (slot w), outstanding w))
    (run submit_then_reschedule two_workers) =
  Some ([Some 1], Some [(5%Z, Some 1)], SCHEDULE, 2).
Proof. reflexivity. Qed.


(** Between the closure's post and the worker's release the handle is in
    the queue and with the worker: two outstanding, one of them live. *)
Example resubmission_window :
  option_map
    (fun w => (queue w, map (fun x => (current x, snd x)) (workers w),
               _state (slot w), outstanding w, live w))
    (run resubmission two_workers) =
  Some ([Some 1], [(Some 1, Closed); (None, Waiting)], SUBMITTED, 2, 1).
Proof. reflexivity. Qed.

(** [ThreadPool::Revoke] from the worker's own thread answers OK while the
    worker runs the body; [Revoked] then makes the slot IDLE and the next
    [Submit] gives a second live handle, with no [Reschedule] in the run. *)
Example self_revoke_two_live :
  option_map
    (fun w => (queue w, map (fun x => (current x, snd x)) (workers w),
               _state (slot w), live w))
    (run self_revoke two_workers) =
  Some ([Some 1], [(Some 1, Dispatched); (None, Waiting)], SUBMITTED, 2) /\
  disciplined self_revoke two_workers = false.
Proof. split; reflexivity. Qed.


Lemma Resubmit_table_witness :
  fst (fst (Resubmit 0%Z (Examples.slot_in SCHEDULE 7))) = Some 1 /\
  snd (fst (Resubmit 0%Z (Examples.slot_in SCHEDULE 7))) = 7%Z /\
  _state (snd (Resubmit 0%Z (Examples.slot_in SCHEDULE 7))) = SUBMITTED.
Proof.
  destruct (@Resubmit_table Z nat 0%Z (Examples.slot_in SCHEDULE 7))
    as (_ & T & _).
  exact T.
Defined.

Lemma Revoke_table_witness :
  fst (Revoke (Examples.slot_in EXECUTING 3)) = Some 1 /\
  _state (snd (Revoke (Examples.slot_in EXECUTING 3))) = REVOKING.
Proof.
  destruct (@Revoke_table Z nat (Examples.slot_in EXECUTING 3))
    as (_ & T & _).
  exact T.
Defined.

Lemma Revoke_Revoked_idle_witness :
  _state (Examples.slot_in SUBMITTED 3) <> IDLE /\
  fst (Revoke (Examples.slot_in SUBMITTED 3)) = Some 1 /\
  _state (Revoked (snd (Revoke (Examples.slot_in SUBMITTED 3)))) = IDLE /\
  _time (Revoked (snd (Revoke (Examples.slot_in SUBMITTED 3)))) = 3%Z.
Proof.
  assert (N : _state (Examples.slot_in SUBMITTED 3) <> IDLE)
    by (simpl; discriminate).
  split; [exact N|].
  destruct (@Revoke_Revoked_idle Z nat (Examples.slot_in SUBMITTED 3) N)
    as (K & _ & S & _ & _ & T).
  split; [exact K|]. split; [exact S | exact T].
Defined.

End WorkedHandles.
